(** * A shallow embedding of the Nertz turn-resolution engine

    The Python package [nertz] is translated module by module:
    - [nertz/models/cards.py]      : suits, ranks, [PlayingCard];
    - [nertz/core/deck.py]         : [DeckManager] and its pile accessors;
    - [nertz/core/foundation.py]   : [Foundation];
    - [nertz/models/game.py]       : [PlayerState], [GameState];
    - [nertz/engine/simulator.py]  : [Move], move generation, selection,
                                     conflict handling and execution of the
                                     engine [NertzEngine] that [main.py] runs;
    - [nertz/engine/conflict_resolver.py], [nertz/engine/move_executor.py]:
                                     the refactored resolver and executor.

    Python lists are Rocq lists whose LAST element is the top of the pile
    ([append] is [l ++ [x]], [pop()] is [removelast]).  Python floats
    (priorities and distances) are modelled by exact rationals [Q].
    Python dicts, whose iteration order is insertion order, are association
    lists updated in place. *)

From Stdlib Require Import List String Ascii Bool Arith ZArith Lia QArith.
From Stdlib Require Import Permutation Lqa.
Import ListNotations.
Local Close Scope Q_scope.
Local Open Scope nat_scope.

(* ------------------------------------------------------------------ *)
(** ** Errors and a result type for code that raises *)

Inductive error :=
| ValueError (msg : string)
| IndexError
| MoveValidationError (msg : string)
| CardMismatchError (pile_name : string)
| InvalidPileError (pile_name : string)
| AttributeError
| ZeroDivisionError.

Inductive result (A : Type) : Type :=
| Ok (a : A)
| Err (e : error).
Arguments Ok {A} a.
Arguments Err {A} e.

Definition rbind {A B} (m : result A) (k : A -> result B) : result B :=
  match m with
  | Ok a => k a
  | Err e => Err e
  end.

Notation "x <- m ;; k" := (rbind m (fun x => k))
  (at level 61, m at next level, right associativity).

(** Python's [l[i]] on a list, for a non-negative index. *)
Definition py_get {A} (l : list A) (i : nat) : result A :=
  match nth_error l i with
  | Some x => Ok x
  | None => Err IndexError
  end.

(** Python's [l[i] = x] for a non-negative index. *)
Fixpoint py_set {A} (l : list A) (i : nat) (x : A) : result (list A) :=
  match l, i with
  | [], _ => Err IndexError
  | _ :: t, 0 => Ok (x :: t)
  | h :: t, S i' => r <- py_set t i' x ;; Ok (h :: r)
  end.

(** [l[-1]] guarded by [if l:], i.e. the top of a pile if any. *)
Definition py_last {A} (l : list A) : option A :=
  match rev l with
  | [] => None
  | x :: _ => Some x
  end.

(** [l.pop()] on a non-empty list: the list without its last element. *)
Definition py_pop {A} (l : list A) : list A := removelast l.

(** Python's [l[start:]] for an integer [start] (negative counts from
    the end and is clamped at 0). *)
Definition py_slice_from {A} (l : list A) (start : Z) : list A :=
  let n := Z.of_nat (List.length l) in
  let s := if (start <? 0)%Z then Z.max 0 (start + n) else Z.min start n in
  skipn (Z.to_nat s) l.

(** [list.index] for a decidable equality. *)
Fixpoint py_index {A} (eqb : A -> A -> bool) (x : A) (l : list A) : option nat :=
  match l with
  | [] => None
  | y :: t => if eqb x y then Some 0
              else match py_index eqb x t with
                   | Some i => Some (S i)
                   | None => None
                   end
  end.

(** Decimal rendering of a player index, as in f-strings. *)
Fixpoint digits_aux (fuel n : nat) (acc : string) : string :=
  match fuel with
  | 0 => acc
  | S f =>
      let acc' := String (ascii_of_nat (48 + n mod 10)) acc in
      if n <? 10 then acc' else digits_aux f (n / 10) acc'
  end.

Definition str_of_nat (n : nat) : string := digits_aux (S n) n "".

(* ------------------------------------------------------------------ *)
(** ** [nertz/models/cards.py] *)

Inductive Suit := spades | clubs | hearts | diamonds.

Definition SUITS : list Suit := [spades; clubs; hearts; diamonds].

Definition suit_eqb (a b : Suit) : bool :=
  match a, b with
  | spades, spades | clubs, clubs | hearts, hearts | diamonds, diamonds => true
  | _, _ => false
  end.

Definition suit_name (s : Suit) : string :=
  match s with
  | spades => "spades" | clubs => "clubs"
  | hearts => "hearts" | diamonds => "diamonds"
  end.

(** The rank literals ["A"], ["2"], ..., ["K"]. *)
Inductive Rank :=
| rank_A | rank_2 | rank_3 | rank_4 | rank_5 | rank_6 | rank_7
| rank_8 | rank_9 | rank_10 | rank_J | rank_Q | rank_K.

Definition RANKS : list Rank :=
  [rank_A; rank_2; rank_3; rank_4; rank_5; rank_6; rank_7;
   rank_8; rank_9; rank_10; rank_J; rank_Q; rank_K].

Definition rank_eqb (a b : Rank) : bool :=
  match a, b with
  | rank_A, rank_A | rank_2, rank_2 | rank_3, rank_3 | rank_4, rank_4
  | rank_5, rank_5 | rank_6, rank_6 | rank_7, rank_7 | rank_8, rank_8
  | rank_9, rank_9 | rank_10, rank_10 | rank_J, rank_J | rank_Q, rank_Q
  | rank_K, rank_K => true
  | _, _ => false
  end.

Module PlayingCard.
(** [@dataclass(frozen=True) class PlayingCard]. *)
Record t := mk { suit : Suit; rank : Rank; player_index : nat }.

(** [PlayingCard.equals]: identity equality on all three fields. *)
Definition equals (c o : t) : bool :=
  suit_eqb (suit c) (suit o) && rank_eqb (rank c) (rank o)
  && Nat.eqb (player_index c) (player_index o).

End PlayingCard.

Abbreviation Card := PlayingCard.t.

(** [RANKS.index(rank)]. *)
Definition rank_index (r : Rank) : nat :=
  match py_index rank_eqb r RANKS with Some i => i | None => 0 end.

(** [_next_rank]: [None] stands for the empty string returned after K. *)
Definition _next_rank (r : Rank) : option Rank :=
  match py_index rank_eqb r RANKS with
  | None => None
  | Some i => if i + 1 <? List.length RANKS then nth_error RANKS (i + 1) else None
  end.

Definition is_red (s : Suit) : bool :=
  existsb (suit_eqb s) [hearts; diamonds].
Definition is_black (s : Suit) : bool :=
  existsb (suit_eqb s) [spades; clubs].

Definition rank_opt_eqb (a : option Rank) (b : Rank) : bool :=
  match a with Some a => rank_eqb a b | None => false end.

(** [NertzEngine._is_valid_solitaire_move]. *)
Definition _is_valid_solitaire_move (source_card dest_card : Card) : bool :=
  if is_red (PlayingCard.suit source_card) && is_black (PlayingCard.suit dest_card)
  then rank_opt_eqb (_next_rank (PlayingCard.rank source_card)) (PlayingCard.rank dest_card)
  else if is_black (PlayingCard.suit source_card) && is_red (PlayingCard.suit dest_card)
  then rank_opt_eqb (_next_rank (PlayingCard.rank source_card)) (PlayingCard.rank dest_card)
  else false.

(* ------------------------------------------------------------------ *)
(** ** [nertz/core/deck.py] *)

(** The piles of [DeckManager].  [__init__] fills [cards_in_nertz] with
    [None] placeholders, which [deal_starting_hand] overwrites; every
    [PlayerState] deals its hand in its constructor, so the piles hold
    cards only. *)
Record DeckManager := mkDeck {
  cards_in_deck : list Card;
  cards_in_stream : list Card;
  cards_in_river : list (list Card);
  cards_in_nertz : list Card;
  cards_in_lake : list Card
}.

(** [DeckManager.top_nertz_card]. *)
Definition top_nertz_card (d : DeckManager) : option Card :=
  py_last (cards_in_nertz d).

(** [DeckManager.top_stream_cards(count)]. *)
Definition top_stream_cards (d : DeckManager) (count : Z) : result (list Card) :=
  if (Z.of_nat (List.length (cards_in_stream d)) <? count)%Z
  then Err (ValueError "Not enough cards in stream")
  else Ok (py_slice_from (cards_in_stream d) (- count)).

(** [DeckManager.river_slot_top_cards]. *)
Definition river_slot_top_cards (d : DeckManager) : list (option Card) :=
  map py_last (cards_in_river d).

(** [DeckManager.deal_card]. *)
Definition deal_card (d : DeckManager) : result (Card * DeckManager) :=
  match py_last (cards_in_deck d) with
  | None => Err (ValueError "No cards left in deck")
  | Some c =>
      Ok (c, mkDeck (py_pop (cards_in_deck d)) (cards_in_stream d)
                    (cards_in_river d) (cards_in_nertz d) (cards_in_lake d))
  end.

(** One iteration of the loop of [flip__into_stream]:
    [if self.cards_in_deck: self.cards_in_stream.append(self.deal_card())]. *)
Definition flip_one (d : DeckManager) : DeckManager :=
  match py_last (cards_in_deck d) with
  | None => d
  | Some c =>
      mkDeck (py_pop (cards_in_deck d)) (cards_in_stream d ++ [c])
             (cards_in_river d) (cards_in_nertz d) (cards_in_lake d)
  end.

(** [DeckManager.flip__into_stream]. *)
Definition flip__into_stream (d : DeckManager) : DeckManager :=
  let d := match cards_in_deck d with
           | [] => mkDeck (cards_in_stream d) [] (cards_in_river d)
                          (cards_in_nertz d) (cards_in_lake d)
           | _ => d
           end in
  flip_one (flip_one (flip_one d)).

(* ------------------------------------------------------------------ *)
(** ** Python dicts: association lists in insertion order *)

Definition dict (V : Type) := list (string * V).

(** [d.get(k)]. *)
Fixpoint dict_get {V} (d : dict V) (k : string) : option V :=
  match d with
  | [] => None
  | (k', v) :: t => if String.eqb k k' then Some v else dict_get t k
  end.

(** [d[k] = v]: an existing key keeps its position, a new key goes last. *)
Fixpoint dict_set {V} (d : dict V) (k : string) (v : V) : dict V :=
  match d with
  | [] => [(k, v)]
  | (k', v') :: t => if String.eqb k k' then (k', v) :: t else (k', v') :: dict_set t k v
  end.

Definition dict_values {V} (d : dict V) : list V := map snd d.

(* ------------------------------------------------------------------ *)
(** ** [nertz/core/foundation.py] *)

(** The identifier [f"foundation_{player_index}_{suit}"]. *)
Definition foundation_key (player_index : nat) (s : Suit) : string :=
  "foundation_" ++ str_of_nat player_index ++ "_" ++ suit_name s.

Module Foundation.
Record t := mk {
  suit : Suit;
  cards : list Card;
  player_index : nat;
  identifier : string
}.

(** [Foundation.__init__(card, player_index)]. *)
Definition create (card : Card) (player_index : nat) : result t :=
  if rank_eqb (PlayingCard.rank card) rank_A
  then Ok (mk (PlayingCard.suit card) [card] player_index
              (foundation_key player_index (PlayingCard.suit card)))
  else Err (ValueError "Initial card must be an ace.").

(** [Foundation.top]: [self.cards[-1]]. *)
Definition top (f : t) : result Card :=
  match py_last (cards f) with Some c => Ok c | None => Err IndexError end.

(** [Foundation.add_card]. *)
Definition add_card (f : t) (card : Card) : t :=
  mk (suit f) (cards f ++ [card]) (player_index f) (identifier f).
End Foundation.

(* ------------------------------------------------------------------ *)
(** ** [nertz/models/game.py] *)

Module PlayerState.
Record t := mk { player_index : nat; score : Z; deck : DeckManager }.
End PlayerState.

(** [GameState]; its [table] (the spatial layout) is not part of the
    record: layout distances enter the model as a parameter below. *)
Record GameState := mkGame {
  player_count : nat;
  players : list PlayerState.t;
  foundations : dict Foundation.t
}.

(** Modelled from the spec: [GameState.create_foundation(card, owner)], which
    both executors call but which is not defined under [src/].  The spec
    (4.2, 4.7): [create(card, owner)] fails unless the card is an Ace, fixes
    the suit from the card and the identifier from (owner, suit), and the
    new foundation is added to the shared state under its identifier. *)
Definition create_foundation (gs : GameState) (card : Card) (owner : nat)
  : result GameState :=
  f <- Foundation.create card owner ;;
  Ok (mkGame (player_count gs) (players gs)
             (dict_set (foundations gs) (Foundation.identifier f) f)).

(** Replace [players[i]] (an in-place mutation of that player's piles). *)
Definition set_player (gs : GameState) (i : nat) (p : PlayerState.t)
  : result GameState :=
  ps <- py_set (players gs) i p ;;
  Ok (mkGame (player_count gs) ps (foundations gs)).

Definition set_deck (p : PlayerState.t) (d : DeckManager) : PlayerState.t :=
  PlayerState.mk (PlayerState.player_index p) (PlayerState.score p) d.

Definition with_river (d : DeckManager) (r : list (list Card)) : DeckManager :=
  mkDeck (cards_in_deck d) (cards_in_stream d) r (cards_in_nertz d) (cards_in_lake d).
Definition with_nertz (d : DeckManager) (n : list Card) : DeckManager :=
  mkDeck (cards_in_deck d) (cards_in_stream d) (cards_in_river d) n (cards_in_lake d).
Definition with_stream (d : DeckManager) (s : list Card) : DeckManager :=
  mkDeck (cards_in_deck d) s (cards_in_river d) (cards_in_nertz d) (cards_in_lake d).
Definition with_lake (d : DeckManager) (l : list Card) : DeckManager :=
  mkDeck (cards_in_deck d) (cards_in_stream d) (cards_in_river d) (cards_in_nertz d) l.

(* ------------------------------------------------------------------ *)
(** ** [Move] (simulator.py; move.py computes the same priority) *)

Inductive LocationType := NertzPile | RiverPile | DeckPile | FoundationPile.

Definition loc_eqb (a b : LocationType) : bool :=
  match a, b with
  | NertzPile, NertzPile | RiverPile, RiverPile
  | DeckPile, DeckPile | FoundationPile, FoundationPile => true
  | _, _ => false
  end.

Inductive MoveType :=
| NERTZ_TO_FOUNDATION | RIVER_TO_FOUNDATION | DECK_TO_FOUNDATION
| DECK_TO_RIVER | NERTZ_TO_RIVER | RIVER_TO_RIVER | DECK_TO_DECK.

Definition move_type_eqb (a b : MoveType) : bool :=
  match a, b with
  | NERTZ_TO_FOUNDATION, NERTZ_TO_FOUNDATION
  | RIVER_TO_FOUNDATION, RIVER_TO_FOUNDATION
  | DECK_TO_FOUNDATION, DECK_TO_FOUNDATION
  | DECK_TO_RIVER, DECK_TO_RIVER | NERTZ_TO_RIVER, NERTZ_TO_RIVER
  | RIVER_TO_RIVER, RIVER_TO_RIVER | DECK_TO_DECK, DECK_TO_DECK => true
  | _, _ => false
  end.

(** [MOVE_TYPE_WEIGHTS]. *)
Definition MOVE_TYPE_WEIGHTS : list (MoveType * Q) :=
  [(NERTZ_TO_FOUNDATION, 1#1); (NERTZ_TO_RIVER, 9#10);
   (RIVER_TO_FOUNDATION, 5#10); (DECK_TO_FOUNDATION, 4#10);
   (DECK_TO_RIVER, 3#10); (RIVER_TO_RIVER, 3#10); (DECK_TO_DECK, 1#10)]%Q.

(** [MOVE_TYPE_WEIGHTS.get(move_type, 0.5)]. *)
Fixpoint weights_get (w : list (MoveType * Q)) (k : MoveType) (default : Q) : Q :=
  match w with
  | [] => default
  | (k', v) :: t => if move_type_eqb k k' then v else weights_get t k default
  end.

Definition str_opt_neqb (s : string) (o : option string) : bool :=
  match o with Some s' => negb (String.eqb s s') | None => true end.

(** [Move._calculate_strategic_bonus], over the foundations of the game
    state the move is built against, for a move that has a card or that is
    not a nertz-to-foundation move (without a card it is 0: [self.card] is
    not read).  For a nertz-to-foundation move without a card, Python
    raises [AttributeError] on [self.card.suit] or [self.card.rank]; that
    case is raised in [make_move] below. *)
Definition _calculate_strategic_bonus (fs : dict Foundation.t)
  (source_pile destination_pile : LocationType) (card : option Card)
  (foundation_identifier : option string) : Q :=
  match card with
  | None => 0%Q
  | Some c =>
      if loc_eqb source_pile NertzPile && loc_eqb destination_pile FoundationPile
      then
        let duplicate_foundation :=
          existsb (fun f => suit_eqb (Foundation.suit f) (PlayingCard.suit c)
                            && str_opt_neqb (Foundation.identifier f) foundation_identifier)
                  (dict_values fs) in
        if duplicate_foundation then 0%Q
        else ((Z.of_nat (rank_index (PlayingCard.rank c) + 1) # 13) * 20)%Q
      else 0%Q
  end.

(** The priority assigned in [Move.__post_init__]. *)
Definition move_priority (fs : dict Foundation.t) (source_pile destination_pile : LocationType)
  (card : option Card) (distance : Q) (move_type : MoveType)
  (foundation_identifier : option string) : Q :=
  let base_weight := weights_get MOVE_TYPE_WEIGHTS move_type (1#2)%Q in
  let distance_factor := (1 - distance * (3#10))%Q in
  let strategic_bonus :=
    _calculate_strategic_bonus fs source_pile destination_pile card foundation_identifier in
  (base_weight * distance_factor + strategic_bonus)%Q.

Module Move.
Record t := mk {
  player_index : nat;
  source_pile : LocationType;
  destination_pile : LocationType;
  card : option Card;
  distance : Q;
  move_type : MoveType;
  priority : Q;
  foundation_identifier : option string;
  river_slot_source : option nat;
  river_slot_destination : option nat
}.
End Move.

Definition is_some {A} (o : option A) : bool :=
  match o with Some _ => true | None => false end.

Definition id_missing (o : option string) : bool :=
  match o with None => true | Some s => String.eqb s "" end.

(** [Move(...)]: the dataclass constructor with [__post_init__]'s checks
    and priority; [_calculate_strategic_bonus] raises [AttributeError] on a
    nertz-to-foundation move whose card is [None]. *)
Definition make_move (gs : GameState) (player_index : nat)
  (source_pile destination_pile : LocationType) (card : option Card)
  (distance : Q) (move_type : MoveType) (foundation_identifier : option string)
  (river_slot_source river_slot_destination : option nat) : result Move.t :=
  if loc_eqb destination_pile FoundationPile && id_missing foundation_identifier
  then Err (ValueError "foundation_identifier must be provided for FoundationPile moves")
  else if loc_eqb source_pile RiverPile && negb (is_some river_slot_source)
  then Err (ValueError "river_slot_source must be provided for RiverPile source moves")
  else if loc_eqb destination_pile RiverPile && negb (is_some river_slot_destination)
  then Err (ValueError "river_slot_destination must be provided for RiverPile destination moves")
  else if loc_eqb source_pile NertzPile && loc_eqb destination_pile FoundationPile
          && negb (is_some card)
  then Err AttributeError
  else Ok (Move.mk player_index source_pile destination_pile card distance move_type
             (move_priority (foundations gs) source_pile destination_pile card distance
                            move_type foundation_identifier)
             foundation_identifier river_slot_source river_slot_destination).

(* ------------------------------------------------------------------ *)
(** ** Move generation ([NertzEngine] in simulator.py) *)

(** A [for] loop whose body may raise, threading an accumulator. *)
Fixpoint py_for {A S} (xs : list A) (s : S) (body : S -> A -> result S) : result S :=
  match xs with
  | [] => Ok s
  | x :: t => s' <- body s x ;; py_for t s' body
  end.

(** [range(4)]. *)
Definition river_range : list nat := seq 0 4.

(** [_distance_player_to_river]: the distance from the player's position
    to itself, [sqrt(0.0) = 0.0]. *)
Definition _distance_player_to_river (player_index : nat) : Q := 0%Q.

Section Generation.

(** The layout ([Table]) places foundations by random sampling; the
    Euclidean distance from a player's position to the position of a
    foundation identifier is a parameter of the model. *)
Variable foundation_distance : nat -> string -> Q.

(** The loop of [generate_river_move]: the first slot index that is empty
    or accepts [card] on its top card. *)
Fixpoint river_scan (rivers : list (list Card)) (card : Card) (idxs : list nat)
  : result (option nat) :=
  match idxs with
  | [] => Ok None
  | i :: t =>
      slot <- py_get rivers i ;;
      match py_last slot with
      | None => Ok (Some i)
      | Some top =>
          if _is_valid_solitaire_move card top then Ok (Some i)
          else river_scan rivers card t
      end
  end.

(** [NertzEngine.generate_river_move]. *)
Definition generate_river_move (gs : GameState) (player_index : nat) (card : Card)
  (source_pile : LocationType) : result (option Move.t) :=
  if loc_eqb source_pile RiverPile
  then Err (ValueError "Do not use this method for river to river moves.")
  else
    player <- py_get (players gs) player_index ;;
    let distance := _distance_player_to_river player_index in
    let move_type := if loc_eqb source_pile DeckPile then DECK_TO_RIVER else NERTZ_TO_RIVER in
    slot <- river_scan (cards_in_river (PlayerState.deck player)) card river_range ;;
    match slot with
    | None => Ok None
    | Some i =>
        m <- make_move gs player_index source_pile RiverPile (Some card) distance
                       move_type None None (Some i) ;;
        Ok (Some m)
    end.

(** The loop of [generate_foundation_move] over [foundations.values()]:
    the first foundation whose suit is the card's and whose top rank is
    the one just below the card's. *)
Fixpoint foundation_scan (fs : list Foundation.t) (card : Card)
  : result (option Foundation.t) :=
  match fs with
  | [] => Ok None
  | f :: t =>
      if suit_eqb (PlayingCard.suit card) (Foundation.suit f)
      then top <- Foundation.top f ;;
           if rank_opt_eqb (_next_rank (PlayingCard.rank top)) (PlayingCard.rank card)
           then Ok (Some f)
           else foundation_scan t card
      else foundation_scan t card
  end.

(** [NertzEngine.generate_foundation_move].  For an Ace, [place_foundation]
    positions the new identifier on the table (layout side effect, carried
    by [foundation_distance]). *)
Definition generate_foundation_move (gs : GameState) (player_index : nat) (card : Card)
  (source_pile : LocationType) (river_slot_source_index : option nat)
  : result (option Move.t) :=
  mt <- match source_pile with
        | NertzPile => Ok NERTZ_TO_FOUNDATION
        | RiverPile => Ok RIVER_TO_FOUNDATION
        | DeckPile => Ok DECK_TO_FOUNDATION
        | FoundationPile => Err (ValueError "Unsupported source_pile for foundation move")
        end ;;
  let build fid :=
    make_move gs player_index source_pile FoundationPile (Some card)
              (foundation_distance player_index fid) mt (Some fid)
              river_slot_source_index None in
  if rank_eqb (PlayingCard.rank card) rank_A
  then m <- build (foundation_key player_index (PlayingCard.suit card)) ;; Ok (Some m)
  else
    f <- foundation_scan (dict_values (foundations gs)) card ;;
    match f with
    | None => Ok None
    | Some f => m <- build (Foundation.identifier f) ;; Ok (Some m)
    end.

(** [NertzEngine.generate_stream_flip_move]. *)
Definition generate_stream_flip_move (gs : GameState) (player_index : nat)
  : result Move.t :=
  make_move gs player_index DeckPile DeckPile None 0%Q DECK_TO_DECK None None None.

Definition append_opt (acc : list Move.t) (m : option Move.t) : list Move.t :=
  match m with Some m => acc ++ [m] | None => acc end.

(** [NertzEngine._add_nertz_moves]. *)
Definition _add_nertz_moves (gs : GameState) (player_index : nat) (legal_moves : list Move.t)
  : result (list Move.t) :=
  player <- py_get (players gs) player_index ;;
  match cards_in_nertz (PlayerState.deck player) with
  | [] => Ok legal_moves
  | _ =>
      match top_nertz_card (PlayerState.deck player) with
      | None => Ok legal_moves
      | Some nertz_card =>
          m <- generate_foundation_move gs player_index nertz_card NertzPile None ;;
          match m with
          | Some m => Ok (legal_moves ++ [m])
          | None =>
              m <- generate_river_move gs player_index nertz_card NertzPile ;;
              Ok (append_opt legal_moves m)
          end
      end
  end.

(** [NertzEngine._add_river_to_foundation_moves]. *)
Definition _add_river_to_foundation_moves (gs : GameState) (player_index : nat)
  (legal_moves : list Move.t) : result (list Move.t) :=
  player <- py_get (players gs) player_index ;;
  py_for river_range legal_moves (fun acc i =>
    current_river_pile <- py_get (cards_in_river (PlayerState.deck player)) i ;;
    match py_last current_river_pile with
    | None => Ok acc
    | Some river_card =>
        m <- generate_foundation_move gs player_index river_card RiverPile (Some i) ;;
        Ok (append_opt acc m)
    end).

(** [NertzEngine._add_river_to_river_moves]: whole-pile moves, the bottom
    card [pile[0]] of slot [i] against the top card of slot [j]. *)
Definition _add_river_to_river_moves (gs : GameState) (player_index : nat)
  (legal_moves : list Move.t) : result (list Move.t) :=
  player <- py_get (players gs) player_index ;;
  let rivers := cards_in_river (PlayerState.deck player) in
  py_for river_range legal_moves (fun acc i =>
    current_river_pile <- py_get rivers i ;;
    match current_river_pile with
    | [] => Ok acc
    | source_card :: _ =>
        py_for river_range acc (fun acc j =>
          if Nat.eqb i j then Ok acc
          else
            dest_river_pile <- py_get rivers j ;;
            match py_last dest_river_pile with
            | None => Ok acc
            | Some dest_card =>
                if _is_valid_solitaire_move source_card dest_card
                then
                  m <- make_move gs player_index RiverPile RiverPile (Some source_card)
                                 (_distance_player_to_river player_index)
                                 RIVER_TO_RIVER None (Some i) (Some j) ;;
                  Ok (acc ++ [m])
                else Ok acc
            end)
    end).

(** [NertzEngine._add_deck_moves]. *)
Definition _add_deck_moves (gs : GameState) (player_index : nat) (legal_moves : list Move.t)
  : result (list Move.t) :=
  player <- py_get (players gs) player_index ;;
  stream_flip_move <- generate_stream_flip_move gs player_index ;;
  let legal_moves := legal_moves ++ [stream_flip_move] in
  top <- top_stream_cards (PlayerState.deck player) 1 ;;
  top_deck_card <- py_get top 0 ;;
  m <- generate_river_move gs player_index top_deck_card DeckPile ;;
  match m with
  | Some m => Ok (legal_moves ++ [m])
  | None =>
      m <- generate_foundation_move gs player_index top_deck_card DeckPile None ;;
      Ok (append_opt legal_moves m)
  end.

(** [NertzEngine.calculate_legal_moves]. *)
Definition calculate_legal_moves (gs : GameState) (player_index : nat)
  : result (list Move.t) :=
  l <- _add_nertz_moves gs player_index [] ;;
  l <- _add_river_to_foundation_moves gs player_index l ;;
  l <- _add_river_to_river_moves gs player_index l ;;
  _add_deck_moves gs player_index l.

End Generation.

(* ------------------------------------------------------------------ *)
(** ** A state monad whose exceptions keep the mutations already made *)

Inductive outcome (S A : Type) : Type :=
| Done (a : A) (s : S)
| Raised (e : error) (s : S).
Arguments Done {S A} a s.
Arguments Raised {S A} e s.

Definition ST (S A : Type) := S -> outcome S A.

Definition st_ret {S A} (a : A) : ST S A := fun s => Done a s.
Definition st_bind {S A B} (m : ST S A) (k : A -> ST S B) : ST S B :=
  fun s => match m s with
           | Done a s' => k a s'
           | Raised e s' => Raised e s'
           end.
Definition st_lift {S A} (r : result A) : ST S A :=
  fun s => match r with Ok a => Done a s | Err e => Raised e s end.
Definition st_get {S} : ST S S := fun s => Done s s.
Definition st_put {S} (s : S) : ST S unit := fun _ => Done tt s.

Notation "'let*' x ':=' m 'in' k" := (st_bind m (fun x => k))
  (at level 200, x name, m at level 100, k at level 200).

(** [for x in xs: body(x)] in the monad. *)
Fixpoint st_for {S A} (xs : list A) (body : A -> ST S unit) : ST S unit :=
  match xs with
  | [] => st_ret tt
  | x :: t => let* _ := body x in st_for t body
  end.

(* ------------------------------------------------------------------ *)
(** ** Move execution *)

Definition move_card (m : Move.t) : result Card :=
  match Move.card m with Some c => Ok c | None => Err AttributeError end.

(** [pile and pile[-1].equals(move.card)]. *)
Definition top_equals (pile : list Card) (m : Move.t) : result bool :=
  match py_last pile with
  | None => Ok false
  | Some top => c <- move_card m ;; Ok (PlayingCard.equals top c)
  end.

(** [slot and slot[0].equals(move.card)]. *)
Definition bottom_equals (pile : list Card) (m : Move.t) : result bool :=
  match pile with
  | [] => Ok false
  | bottom :: _ => c <- move_card m ;; Ok (PlayingCard.equals bottom c)
  end.

Definition update_deck (gs : GameState) (i : nat) (f : DeckManager -> result DeckManager)
  : result GameState :=
  player <- py_get (players gs) i ;;
  d <- f (PlayerState.deck player) ;;
  set_player gs i (set_deck player d).

(** [player.deck.cards_in_river[i].append(card)].  A move without a card
    is stopped here with [AttributeError]; Python appends [None] to the
    slot, and for a move from a nertz, stream or river pile then raises in
    the source effects ([None.suit] in [equals], or a mismatch on an empty
    pile), so for such a move only the state raised with differs. *)
Definition river_append (d : DeckManager) (i : nat) (c : option Card) : result DeckManager :=
  slot <- py_get (cards_in_river d) i ;;
  c <- match c with Some c => Ok c | None => Err AttributeError end ;;
  r <- py_set (cards_in_river d) i (slot ++ [c]) ;;
  Ok (with_river d r).

(** The foundation branch shared by both executors; [lake] says whether
    the card is also appended to the mover's lake. *)
Definition place_on_foundation (lake : bool) (mismatch : string -> error)
  (gs : GameState) (m : Move.t) : result GameState :=
  c <- move_card m ;;
  let add_lake gs :=
    if lake then update_deck gs (Move.player_index m)
                   (fun d => Ok (with_lake d (cards_in_lake d ++ [c])))
    else Ok gs in
  if rank_eqb (PlayingCard.rank c) rank_A
  then gs <- create_foundation gs c (Move.player_index m) ;; add_lake gs
  else
    let fid := match Move.foundation_identifier m with Some f => f | None => ""%string end in
    match Move.foundation_identifier m, dict_get (foundations gs) fid with
    | Some fid, Some f =>
        let gs := mkGame (player_count gs) (players gs)
                         (dict_set (foundations gs) fid (Foundation.add_card f c)) in
        add_lake gs
    | _, _ => Err (mismatch fid)
    end.

(** [NertzEngine._apply_destination_effects] (simulator.py). *)
Definition sim_apply_destination_effects (gs : GameState) (m : Move.t) : result GameState :=
  match Move.destination_pile m with
  | FoundationPile =>
      place_on_foundation false (fun fid => ValueError ("Foundation " ++ fid ++ " does not exist.")) gs m
  | RiverPile =>
      match Move.river_slot_destination m with
      | None => Err (ValueError "River slot destination index must be specified for RiverPile moves.")
      | Some i => update_deck gs (Move.player_index m) (fun d => river_append d i (Move.card m))
      end
  | _ => Ok gs
  end.

(** [MoveExecutor._apply_destination_effects] with [_place_on_foundation]
    and [_place_on_river] (move_executor.py). *)
Definition exe_apply_destination_effects (gs : GameState) (m : Move.t) : result GameState :=
  match Move.destination_pile m with
  | FoundationPile => place_on_foundation true InvalidPileError gs m
  | RiverPile =>
      match Move.river_slot_destination m with
      | None => Err (MoveValidationError "River slot destination index must be specified for RiverPile moves.")
      | Some i => update_deck gs (Move.player_index m) (fun d => river_append d i (Move.card m))
      end
  | _ => Ok gs
  end.

(** Verify-then-pop on the top of a pile. *)
Definition pop_top (pile : list Card) (m : Move.t) (err : error) : result (list Card) :=
  ok <- top_equals pile m ;;
  if ok then Ok (py_pop pile) else Err err.

(** Where a verification before a pop fails: the top of the nertz pile,
    the top of the stream, or the bottom or the top of river slot [i]. *)
Inductive pop_site := nertz_top | stream_top | river_bottom (i : nat) | river_top (i : nat).

(** The source effects; [whole_pile_pop] is what a river-to-river move
    does to its source slot once its bottom card has been verified:
    [slot.pop()] in simulator.py, [slot.pop(0)] in move_executor.py.
    [mismatch] is the error each executor raises at a failed verification,
    [missing_slot] the one for a river source without a slot index. *)
Definition apply_source_effects (whole_pile_pop : list Card -> list Card)
  (mismatch : pop_site -> error) (missing_slot : error)
  (gs : GameState) (m : Move.t) : result GameState :=
  match Move.source_pile m with
  | NertzPile =>
      update_deck gs (Move.player_index m) (fun d =>
        n <- pop_top (cards_in_nertz d) m (mismatch nertz_top) ;; Ok (with_nertz d n))
  | DeckPile =>
      update_deck gs (Move.player_index m) (fun d =>
        s <- pop_top (cards_in_stream d) m (mismatch stream_top) ;; Ok (with_stream d s))
  | RiverPile =>
      match Move.river_slot_source m with
      | None => Err missing_slot
      | Some i =>
          update_deck gs (Move.player_index m) (fun d =>
            slot <- py_get (cards_in_river d) i ;;
            slot' <- (if loc_eqb (Move.destination_pile m) RiverPile
                      then ok <- bottom_equals slot m ;;
                           if ok then Ok (whole_pile_pop slot)
                           else Err (mismatch (river_bottom i))
                      else pop_top slot m (mismatch (river_top i))) ;;
            r <- py_set (cards_in_river d) i slot' ;;
            Ok (with_river d r))
      end
  | FoundationPile => Ok gs
  end.

(** The [ValueError] messages of [NertzEngine._apply_source_effects]. *)
Definition sim_mismatch (site : pop_site) : error :=
  match site with
  | nertz_top => ValueError "Top Nertz card does not match the move card."
  | stream_top => ValueError "Top Deck stream card does not match the move card."
  | river_bottom _ => ValueError "Bottom River card does not match the move card."
  | river_top _ => ValueError "Top River card does not match the move card."
  end.

(** [NertzEngine._apply_source_effects]: the bottom card is checked,
    then [slot.pop()] removes the top one. *)
Definition sim_apply_source_effects : GameState -> Move.t -> result GameState :=
  apply_source_effects py_pop sim_mismatch
    (ValueError "River slot source index must be specified for RiverPile moves.").

(** The [pile_name] of the [CardMismatchError]s of [_remove_from_nertz],
    [_remove_from_stream] and [_remove_from_river] (the expected and actual
    cards of the error are not modelled). *)
Definition exe_mismatch (site : pop_site) : error :=
  match site with
  | nertz_top => CardMismatchError "NertzPile"
  | stream_top => CardMismatchError "DeckPile (stream)"
  | river_bottom i => CardMismatchError ("RiverPile (slot " ++ str_of_nat i ++ ", bottom)")
  | river_top i => CardMismatchError ("RiverPile (slot " ++ str_of_nat i ++ ", top)")
  end.

(** [MoveExecutor._apply_source_effects]: [slot.pop(0)] for river-to-river. *)
Definition exe_apply_source_effects : GameState -> Move.t -> result GameState :=
  apply_source_effects (@tl Card) exe_mismatch
    (MoveValidationError "River slot source index must be specified for RiverPile moves.").

(** The common shape of [execute_move] / [MoveExecutor.execute]: a flip, or
    destination effects then source effects (without rollback). *)
Definition execute_with
  (dest src : GameState -> Move.t -> result GameState) (m : Move.t) : ST GameState unit :=
  fun gs =>
  match py_get (players gs) (Move.player_index m) with
  | Err e => Raised e gs
  | Ok player =>
      if move_type_eqb (Move.move_type m) DECK_TO_DECK
      then match set_player gs (Move.player_index m)
                   (set_deck player (flip__into_stream (PlayerState.deck player))) with
           | Ok gs' => Done tt gs'
           | Err e => Raised e gs
           end
      else match dest gs m with
           | Err e => Raised e gs
           | Ok gs1 => match src gs1 m with
                       | Ok gs2 => Done tt gs2
                       | Err e => Raised e gs1
                       end
           end
  end.

(** [NertzEngine.execute_move]. *)
Definition execute_move : Move.t -> ST GameState unit :=
  execute_with sim_apply_destination_effects sim_apply_source_effects.

(** [MoveExecutor.execute]. *)
Definition execute : Move.t -> ST GameState unit :=
  execute_with exe_apply_destination_effects exe_apply_source_effects.

(* ------------------------------------------------------------------ *)
(** ** Selection of each player's candidate ([play_turn], lines 163-225) *)

(** Python's [<] on floats. *)
Definition Qlt_bool (a b : Q) : bool := negb (Qle_bool b a).

(** The loop that keeps the first move with the largest
    [priority + distance], starting from [highest_total = -1.0]. *)
Definition select_step (st : Q * option Move.t) (move : Move.t) : Q * option Move.t :=
  let '(highest_total, chosen_move) := st in
  let combined_score := (Move.priority move + Move.distance move)%Q in
  if Qlt_bool highest_total combined_score
  then (combined_score, Some move)
  else (highest_total, chosen_move).

Definition select_move (calculated_moves : list Move.t) : option Move.t :=
  snd (fold_left select_step calculated_moves ((-1)%Q, None)).

(** [for player in self.game_state.players: ...]: the chosen moves. *)
Definition choose_moves (foundation_distance : nat -> string -> Q) (gs : GameState)
  : result (list Move.t) :=
  py_for (players gs) [] (fun chosen_moves_list player =>
    calculated_moves <- calculate_legal_moves foundation_distance gs
                          (PlayerState.player_index player) ;;
    Ok (append_opt chosen_moves_list (select_move calculated_moves))).

(* ------------------------------------------------------------------ *)
(** ** Conflict resolution *)

(** The sort key [(-m.priority, m.distance, m.player_index)], compared as
    Python compares tuples. *)
Definition key_lt (m1 m2 : Move.t) : bool :=
  let p1 := (- Move.priority m1)%Q in
  let p2 := (- Move.priority m2)%Q in
  if negb (Qeq_bool p1 p2) then Qlt_bool p1 p2
  else if negb (Qeq_bool (Move.distance m1) (Move.distance m2))
  then Qlt_bool (Move.distance m1) (Move.distance m2)
  else Nat.ltb (Move.player_index m1) (Move.player_index m2).

(** [list.sort(key=...)] is a stable sort: an insertion sort that puts an
    element before the first one whose key is not smaller. *)
Fixpoint insert_by_key (m : Move.t) (l : list Move.t) : list Move.t :=
  match l with
  | [] => [m]
  | y :: t => if key_lt y m then y :: insert_by_key m t else m :: y :: t
  end.

Fixpoint sort_by_key (l : list Move.t) : list Move.t :=
  match l with
  | [] => []
  | m :: t => insert_by_key m (sort_by_key t)
  end.

(** [conflict_map]: foundation identifier to moves, in insertion order. *)
Definition conflict_map := list (option string * list Move.t).

Definition opt_str_eqb (a b : option string) : bool :=
  match a, b with
  | Some a, Some b => String.eqb a b
  | None, None => true
  | _, _ => false
  end.

(** [if dest_id not in conflict_map: conflict_map[dest_id] = []];
    [conflict_map[dest_id].append(move)]. *)
Fixpoint cmap_add (cm : conflict_map) (k : option string) (m : Move.t) : conflict_map :=
  match cm with
  | [] => [(k, [m])]
  | (k', ms) :: t => if opt_str_eqb k k' then (k', ms ++ [m]) :: t
                     else (k', ms) :: cmap_add t k m
  end.

(** [ConflictResolver._resolve_foundation_conflict]. *)
Definition _resolve_foundation_conflict (moves : list Move.t) : option Move.t :=
  match moves with
  | [m] => Some m
  | _ => hd_error (sort_by_key moves)
  end.

(** One iteration of the partition loop of [ConflictResolver.resolve]. *)
Definition resolve_step (acc : list Move.t * conflict_map) (move : Move.t)
  : result (list Move.t * conflict_map) :=
  let '(executable_moves, cm) := acc in
  if negb (loc_eqb (Move.destination_pile move) FoundationPile)
  then Ok (executable_moves ++ [move], cm)
  else
    c <- move_card move ;;
    if rank_eqb (PlayingCard.rank c) rank_A
    then Ok (executable_moves ++ [move], cm)
    else Ok (executable_moves, cmap_add cm (Move.foundation_identifier move) move).

(** [ConflictResolver.resolve]. *)
Definition resolve (chosen_moves : list Move.t) : result (list Move.t) :=
  acc <- py_for chosen_moves ([], []) resolve_step ;;
  Ok (fst acc ++ flat_map (fun kv => match _resolve_foundation_conflict (snd kv) with
                                     | Some w => [w] | None => [] end) (snd acc)).

(* ------------------------------------------------------------------ *)
(** ** The engine ([NertzEngine]) *)

Record Engine := mkEngine { game_state : GameState; turn_counter : nat }.

(** [NertzEngine.is_game_over] ([self.game_state] is an object, always
    truthy). *)
Definition is_game_over (gs : GameState) : bool :=
  existsb (fun p => Nat.eqb (List.length (cards_in_nertz (PlayerState.deck p))) 0) (players gs).

(** A computation on the game state, run on the engine's. *)
Definition in_game {A} (m : ST GameState A) : ST Engine A :=
  fun e => match m (game_state e) with
           | Done a gs => Done a (mkEngine gs (turn_counter e))
           | Raised err gs => Raised err (mkEngine gs (turn_counter e))
           end.

Fixpoint st_fold {S A B} (xs : list A) (b : B) (body : B -> A -> ST S B) : ST S B :=
  match xs with
  | [] => st_ret b
  | x :: t => let* b' := body b x in st_fold t b' body
  end.

(** Lines 234-274 of [play_turn]: moves that cannot conflict are executed
    at once, the others grouped by foundation, then one per group. *)
Definition execute_chosen (chosen_moves_list : list Move.t) : ST GameState unit :=
  let* cm := st_fold chosen_moves_list [] (fun cm move =>
    if negb (loc_eqb (Move.destination_pile move) FoundationPile)
    then let* _ := execute_move move in st_ret cm
    else
      let* c := st_lift (move_card move) in
      if rank_eqb (PlayingCard.rank c) rank_A
      then let* _ := execute_move move in st_ret cm
      else st_ret (cmap_add cm (Move.foundation_identifier move) move)) in
  st_for cm (fun kv =>
    match snd kv with
    | [m] => execute_move m
    | foundation_moves =>
        match hd_error (sort_by_key foundation_moves) with
        | Some best_move => execute_move best_move
        | None => st_ret tt
        end
    end).

(** [NertzEngine.play_turn]. *)
Definition play_turn (foundation_distance : nat -> string -> Q) : ST Engine unit :=
  fun e =>
  if is_game_over (game_state e) then Done tt e
  else
    let e := mkEngine (game_state e) (S (turn_counter e)) in
    match choose_moves foundation_distance (game_state e) with
    | Err err => Raised err e
    | Ok chosen_moves_list => in_game (execute_chosen chosen_moves_list) e
    end.

(* ------------------------------------------------------------------ *)
(** ** Setting up a game ([deck.py], [game.py]) and scoring ([scoring.py]) *)

Definition option_list {A} (o : option A) : list A :=
  match o with Some a => [a] | None => [] end.

Definition with_deck (d : DeckManager) (k : list Card) : DeckManager :=
  mkDeck k (cards_in_stream d) (cards_in_river d) (cards_in_nertz d) (cards_in_lake d).

(** [DeckManager(player_index)]: empty deck and stream, four empty river
    slots, an empty lake.  Its [[None] * 13] nertz placeholders are the
    slots written by [deal_starting_hand] below. *)
Definition new_deck_manager : DeckManager := mkDeck [] [] [[]; []; []; []] [] [].

(** [DeckManager.generate_new_deck]:
    [for suit in SUITS: for rank in RANKS: self.cards_in_deck.append(...)]. *)
Definition generate_new_deck (player_index : nat) (d : DeckManager) : DeckManager :=
  fold_left (fun d suit =>
    fold_left (fun d rank =>
      with_deck d (cards_in_deck d ++ [PlayingCard.mk suit rank player_index]))
      RANKS d)
    SUITS d.

(** [DeckManager.shuffle]: [random.shuffle(self.cards_in_deck)]; the order
    drawn by the random generator is the function [shuffle]. *)
Definition shuffle_deck (shuffle : list Card -> list Card) (d : DeckManager) : DeckManager :=
  with_deck d (shuffle (cards_in_deck d)).

(** [DeckManager(player_index).deal_starting_hand()]: one card dealt to
    each river slot, [self.cards_in_nertz[j] = self.deal_card()] for the
    13 nertz slots (the list of [None] placeholders is threaded beside the
    piles and becomes the nertz pile of the cards its slots hold), then a
    flip into the stream. *)
Definition deal_starting_hand (player_index : nat) (shuffle : list Card -> list Card)
  : result DeckManager :=
  let d := shuffle_deck shuffle (generate_new_deck player_index new_deck_manager) in
  d <- py_for (seq 0 4) d (fun d j =>
         cd <- deal_card d ;;
         r <- py_set (cards_in_river (snd cd)) j [fst cd] ;;
         Ok (with_river (snd cd) r)) ;;
  dn <- py_for (seq 0 13) (d, repeat (@None Card) 13) (fun dn j =>
          cd <- deal_card (fst dn) ;;
          slots <- py_set (snd dn) j (Some (fst cd)) ;;
          Ok (snd cd, slots)) ;;
  Ok (flip__into_stream (with_nertz (fst dn) (flat_map option_list (snd dn)))).

(** [PlayerState(player_index)]. *)
Definition new_player_state (player_index : nat) (shuffle : list Card -> list Card)
  : result PlayerState.t :=
  d <- deal_starting_hand player_index shuffle ;;
  Ok (PlayerState.mk player_index 0%Z d).

(** [Table(player_count)] (layout.py): of its construction only the
    failure is modelled, [2 * math.pi / self.player_count] raising
    [ZeroDivisionError] for no players; the positions it computes enter the
    model through [foundation_distance]. *)
Definition table_init (player_count : nat) : result unit :=
  if Nat.eqb player_count 0 then Err ZeroDivisionError else Ok tt.

(** [GameState(player_count)]; [shuffle i] is the order drawn when player
    [i]'s deck is shuffled.  The players are dealt, then the [Table] is
    built (the record [GameState] does not keep it). *)
Definition new_game_state (player_count : nat) (shuffle : nat -> list Card -> list Card)
  : result GameState :=
  ps <- py_for (seq 0 player_count) [] (fun ps i =>
          player <- new_player_state i (shuffle i) ;; Ok (ps ++ [player])) ;;
  _ <- table_init player_count ;;
  Ok (mkGame player_count ps []).

(** The body of the loop of [process_game_scores]:
    [player.score += len(cards_in_nertz) * -2 + len(cards_in_lake)]. *)
Definition score_player (player : PlayerState.t) : PlayerState.t :=
  let d := PlayerState.deck player in
  let nertz_remaining := Z.of_nat (List.length (cards_in_nertz d)) in
  let lake_played := Z.of_nat (List.length (cards_in_lake d)) in
  let score := (nertz_remaining * -2 + lake_played)%Z in
  PlayerState.mk (PlayerState.player_index player) (PlayerState.score player + score)%Z d.

(** [process_game_scores(game_state)]: updates every player in place. *)
Definition process_game_scores (gs : GameState) : GameState :=
  mkGame (player_count gs) (map score_player (players gs)) (foundations gs).

(* ------------------------------------------------------------------ *)
(** ** [nertz/engine/move_generator.py]: the solitaire rule of [MoveGenerator] *)

(** [RED_SUITS = {"hearts", "diamonds"}] (constants.py). *)
Definition RED_SUITS : list Suit := [hearts; diamonds].

(** [MoveGenerator._is_opposite_color]. *)
Definition _is_opposite_color (card1 card2 : Card) : bool :=
  negb (Bool.eqb (existsb (suit_eqb (PlayingCard.suit card1)) RED_SUITS)
                 (existsb (suit_eqb (PlayingCard.suit card2)) RED_SUITS)).

(** [MoveGenerator._is_valid_solitaire_move]; its [_next_rank] is the
    engine's, line for line. *)
Definition mg_is_valid_solitaire_move (source_card dest_card : Card) : bool :=
  _is_opposite_color source_card dest_card &&
  rank_opt_eqb (_next_rank (PlayingCard.rank source_card)) (PlayingCard.rank dest_card).

(* ------------------------------------------------------------------ *)
(** ** [nertz/engine/move.py]: [MoveContext] and the context-based [Move] *)

Module FoundationSummary.
(** [@dataclass class FoundationSummary]. *)
Record t := mk { identifier : string; suit : Suit; top_rank : Rank }.
End FoundationSummary.

(** [MoveContext]: its [foundations] dict, keyed by foundation identifier. *)
Definition MoveContext := dict FoundationSummary.t.

(** [MoveContext.from_game_state]: [foundation.top()] raises [IndexError]
    on a foundation without cards. *)
Definition from_game_state (gs : GameState) : result MoveContext :=
  py_for (foundations gs) [] (fun fs kv =>
    top <- Foundation.top (snd kv) ;;
    Ok (dict_set fs (fst kv)
          (FoundationSummary.mk (Foundation.identifier (snd kv)) (Foundation.suit (snd kv))
                                (PlayingCard.rank top)))).

(** [MAX_DISTANCE_PENALTY_FACTOR], [NERTZ_UNIQUE_FOUNDATION_BONUS_MULTIPLIER]
    and [TOTAL_RANKS] (constants.py). *)
Definition MAX_DISTANCE_PENALTY_FACTOR : Q := 3#10.
Definition NERTZ_UNIQUE_FOUNDATION_BONUS_MULTIPLIER : Q := 20.
Definition TOTAL_RANKS : positive := 13.

(** [Move._calculate_strategic_bonus] of move.py, over a [MoveContext]. *)
Definition ctx_calculate_strategic_bonus (context : MoveContext)
  (source_pile destination_pile : LocationType) (card : option Card)
  (foundation_identifier : option string) : Q :=
  match card with
  | None => 0%Q
  | Some c =>
      if loc_eqb source_pile NertzPile && loc_eqb destination_pile FoundationPile
      then
        let duplicate_foundation :=
          existsb (fun fs => suit_eqb (FoundationSummary.suit fs) (PlayingCard.suit c)
                             && str_opt_neqb (FoundationSummary.identifier fs) foundation_identifier)
                  (dict_values context) in
        if duplicate_foundation then 0%Q
        else ((Z.of_nat (rank_index (PlayingCard.rank c) + 1) # TOTAL_RANKS)
              * NERTZ_UNIQUE_FOUNDATION_BONUS_MULTIPLIER)%Q
      else 0%Q
  end.

(** [Move._calculate_priority] of move.py. *)
Definition ctx_calculate_priority (context : MoveContext)
  (source_pile destination_pile : LocationType) (card : option Card)
  (distance : Q) (move_type : MoveType) (foundation_identifier : option string) : Q :=
  let base_weight := weights_get MOVE_TYPE_WEIGHTS move_type (1#2)%Q in
  let distance_factor := (1 - distance * MAX_DISTANCE_PENALTY_FACTOR)%Q in
  let strategic_bonus :=
    ctx_calculate_strategic_bonus context source_pile destination_pile card foundation_identifier in
  (base_weight * distance_factor + strategic_bonus)%Q.

(** [Move(...)] of move.py: [_validate_fields], then [_calculate_priority]. *)
Definition ctx_make_move (context : MoveContext) (player_index : nat)
  (source_pile destination_pile : LocationType) (card : option Card)
  (distance : Q) (move_type : MoveType) (foundation_identifier : option string)
  (river_slot_source river_slot_destination : option nat) : result Move.t :=
  if loc_eqb destination_pile FoundationPile && id_missing foundation_identifier
  then Err (MoveValidationError "foundation_identifier must be provided for FoundationPile moves")
  else if loc_eqb source_pile RiverPile && negb (is_some river_slot_source)
  then Err (MoveValidationError "river_slot_source must be provided for RiverPile source moves")
  else if loc_eqb destination_pile RiverPile && negb (is_some river_slot_destination)
  then Err (MoveValidationError "river_slot_destination must be provided for RiverPile destination moves")
  else Ok (Move.mk player_index source_pile destination_pile card distance move_type
             (ctx_calculate_priority context source_pile destination_pile card distance
                                     move_type foundation_identifier)
             foundation_identifier river_slot_source river_slot_destination).

(** The error class of move.py for the simulator's [ValueError]s. *)
Definition as_move_validation_error {A} (r : result A) : result A :=
  match r with
  | Err (ValueError msg) => Err (MoveValidationError msg)
  | r => r
  end.

(** The identifier and suit of a foundation summary and of a foundation. *)
Definition fs_key (fs : FoundationSummary.t) : string * Suit :=
  (FoundationSummary.identifier fs, FoundationSummary.suit fs).
Definition f_key (f : Foundation.t) : string * Suit :=
  (Foundation.identifier f, Foundation.suit f).


(** The deck of a starting hand, for a shuffled order [l] of 52 cards. *)
Definition dealt_deck (l : list Card) : DeckManager :=
  mkDeck (firstn 32 l) (rev (firstn 3 (skipn 32 l)))
         (map (fun c => [c]) (rev (skipn 48 l))) (rev (firstn 13 (skipn 35 l))) [].

(* ------------------------------------------------------------------ *)
(** ** Concrete states used by the witnesses and counterexamples *)

Definition card_h7 := PlayingCard.mk hearts rank_7 0.
Definition card_s6 := PlayingCard.mk spades rank_6 0.
Definition card_c8 := PlayingCard.mk clubs rank_8 0.
Definition card_sA := PlayingCard.mk spades rank_A 0.
Definition card_d9 := PlayingCard.mk diamonds rank_9 0.

(** Player 0: an Ace of spades on the nertz pile, slot 0 holding the
    7 of hearts under the 6 of spades, slot 1 the 8 of clubs, an empty
    stream and one card left in the deck. *)
Definition deck_ex := mkDeck [card_d9] [] [[card_h7; card_s6]; [card_c8]; []; []] [card_sA] [].
Definition gs_ex := mkGame 1 [PlayerState.mk 0 0 deck_ex] [].

(** The same player after a flip: the stream holds the 9 of diamonds. *)
Definition deck_flipped := mkDeck [] [card_d9] [[card_h7; card_s6]; [card_c8]; []; []] [card_sA] [].
Definition gs_flipped := mkGame 1 [PlayerState.mk 0 0 deck_flipped] [].

(** A layout in which every foundation is at distance 1/2 from every player. *)
Definition dist_ex (p : nat) (fid : string) : Q := 1#2.

(** Player 0 plays the Ace of spades from the nertz pile to a new foundation. *)
Definition move_ace :=
  Move.mk 0 NertzPile FoundationPile (Some card_sA) (1#2) NERTZ_TO_FOUNDATION
          (move_priority [] NertzPile FoundationPile (Some card_sA) (1#2)
                         NERTZ_TO_FOUNDATION (Some (foundation_key 0 spades)))
          (Some (foundation_key 0 spades)) None None.

(** Player 0 moves the pile of slot 0 (bottom card: 7 of hearts) onto slot 1. *)
Definition move_r2r :=
  Move.mk 0 RiverPile RiverPile (Some card_h7) 0 RIVER_TO_RIVER
          (move_priority [] RiverPile RiverPile (Some card_h7) 0 RIVER_TO_RIVER None)
          None (Some 0) (Some 1).

(** Two players aim a Two of Spades at the same foundation with equal
    priority; player 1 is closer. *)
Definition card_s2_p0 := PlayingCard.mk spades rank_2 0.
Definition card_s2_p1 := PlayingCard.mk spades rank_2 1.

Definition move_far :=
  Move.mk 0 NertzPile FoundationPile (Some card_s2_p0) (1#2) NERTZ_TO_FOUNDATION 1%Q
          (Some (foundation_key 1 spades)) None None.

Definition move_near :=
  Move.mk 1 NertzPile FoundationPile (Some card_s2_p1) (1#4) NERTZ_TO_FOUNDATION 1%Q
          (Some (foundation_key 1 spades)) None None.

Definition chosen_ex := [move_far; move_r2r; move_near].

(** A full deck of player 0: the Ace of spades on the nertz pile, the
    9 of diamonds in the stream, the other 50 cards in the deck. *)
Definition full_deck (p : nat) : list Card :=
  flat_map (fun s => map (fun r => PlayingCard.mk s r p) RANKS) SUITS.

Definition deck_without (cs : list Card) : list Card :=
  filter (fun c => negb (existsb (PlayingCard.equals c) cs)) (full_deck 0).

Definition deck_full :=
  mkDeck (deck_without [card_sA; card_d9]) [card_d9] [[]; []; []; []] [card_sA] [].

Definition gs_full := mkGame 1 [PlayerState.mk 0 0 deck_full] [].

(** Later in such a game: the Ace of spades is on its foundation (placed
    by [execute_move], which leaves the lake empty), the Two of spades is
    on the nertz pile. *)
Definition foundation_sA := Foundation.mk spades [card_sA] 0 (foundation_key 0 spades).

Definition deck_found :=
  mkDeck (deck_without [card_sA; card_s2_p0; card_d9]) [card_d9] [[]; []; []; []]
         [card_s2_p0] [].

Definition gs_found :=
  mkGame 1 [PlayerState.mk 0 0 deck_found] [(foundation_key 0 spades, foundation_sA)].

Definition move_s2 :=
  Move.mk 0 NertzPile FoundationPile (Some card_s2_p0) (1#2) NERTZ_TO_FOUNDATION
          (move_priority (foundations gs_found) NertzPile FoundationPile (Some card_s2_p0)
                         (1#2) NERTZ_TO_FOUNDATION (Some (foundation_key 0 spades)))
          (Some (foundation_key 0 spades)) None None.

(** Counting cards: decidable equality of cards. *)
Definition card_eq_dec (a b : Card) : {a = b} + {a <> b}.
Proof. decide equality; (apply Nat.eq_dec || decide equality). Defined.

(** The cards of a pile set other than its lake. *)
Definition pile_cards (d : DeckManager) : list Card :=
  cards_in_deck d ++ cards_in_stream d ++ List.concat (cards_in_river d) ++ cards_in_nertz d.

(** All five piles: deck, stream, rivers, nertz and lake. *)
Definition pile_cards_with_lake (d : DeckManager) : list Card :=
  pile_cards d ++ cards_in_lake d.

Definition foundation_cards (gs : GameState) : list Card :=
  flat_map Foundation.cards (dict_values (foundations gs)).

Definition all_cards (gs : GameState) : list Card :=
  flat_map (fun p => pile_cards (PlayerState.deck p)) (players gs) ++ foundation_cards gs.

Definition all_cards_with_lake (gs : GameState) : list Card :=
  flat_map (fun p => pile_cards_with_lake (PlayerState.deck p)) (players gs) ++
  foundation_cards gs.

Definition owned_by (q : nat) (c : Card) : bool := Nat.eqb (PlayingCard.player_index c) q.

(** Player [q]'s cards in the piles and on the foundations. *)
Definition owned_cards (gs : GameState) (q : nat) : list Card :=
  filter (owned_by q) (all_cards gs).

Definition owned_cards_with_lake (gs : GameState) (q : nat) : list Card :=
  filter (owned_by q) (all_cards_with_lake gs).

(** The moves whose effects are a flip, or a card taken from a pile and
    put on a foundation or a river slot. *)
Definition pile_move (m : Move.t) : bool :=
  move_type_eqb (Move.move_type m) DECK_TO_DECK ||
  (negb (loc_eqb (Move.source_pile m) FoundationPile) &&
   (loc_eqb (Move.destination_pile m) FoundationPile ||
    loc_eqb (Move.destination_pile m) RiverPile)).

(** An Ace moved to a foundation starts a foundation whose identifier is
    not taken yet. *)
Definition fresh_ace_foundation (gs : GameState) (m : Move.t) : Prop :=
  forall c, Move.card m = Some c -> PlayingCard.rank c = rank_A ->
  dict_get (foundations gs) (foundation_key (Move.player_index m) (PlayingCard.suit c)) = None.

(** The lakes of all players. *)
Definition lake_cards (gs : GameState) : list Card :=
  flat_map (fun p => cards_in_lake (PlayerState.deck p)) (players gs).

(** The card a move puts on a foundation, if it does. *)
Definition placed_on_foundation (m : Move.t) : list Card :=
  if move_type_eqb (Move.move_type m) DECK_TO_DECK then []
  else if loc_eqb (Move.destination_pile m) FoundationPile then option_list (Move.card m)
  else [].

(** A move of a whole river slot onto another slot (C3). *)
Definition river_to_river (m : Move.t) : bool :=
  loc_eqb (Move.source_pile m) RiverPile && loc_eqb (Move.destination_pile m) RiverPile.

(** [combined_score = move.priority + move.distance] of the selection loop. *)
Definition combined_score (m : Move.t) : Q := (Move.priority m + Move.distance m)%Q.

(** [ms = l1 ++ m :: l2] where [m] is the first move of largest combined
    score. *)
Definition first_max (ms : list Move.t) (m : Move.t) : Prop :=
  exists l1 l2, ms = l1 ++ m :: l2 /\
    Forall (fun x => combined_score x < combined_score m)%Q l1 /\
    Forall (fun x => combined_score x <= combined_score m)%Q l2.

(** Every move of the list has a positive combined score. *)
Definition pos_scores (l : list Move.t) : Prop :=
  Forall (fun m => 0 < combined_score m)%Q l.

(** Predicates on moves used to state the resolver's behaviour. *)
Definition is_ace_card (m : Move.t) : bool :=
  match Move.card m with Some c => rank_eqb (PlayingCard.rank c) rank_A | None => false end.

(** A move that enters [conflict_map]: to a foundation, not an Ace. *)
Definition is_conflict (m : Move.t) : bool :=
  loc_eqb (Move.destination_pile m) FoundationPile && negb (is_ace_card m).

Definition passes (m : Move.t) : bool := negb (is_conflict m).

Definition has_fid (k : option string) (m : Move.t) : bool :=
  opt_str_eqb (Move.foundation_identifier m) k.

Definition targets (k : option string) (m : Move.t) : bool :=
  is_conflict m && has_fid k m.

(** The [conflict_map] built from a list of moves to foundations. *)
Definition cm_of (l : list Move.t) : conflict_map :=
  fold_left (fun cm m => cmap_add cm (Move.foundation_identifier m) m) l [].

(** The foundation identifiers of a list of moves, in first-occurrence order. *)
Definition keys_add (ks : list (option string)) (k : option string) : list (option string) :=
  if existsb (opt_str_eqb k) ks then ks else ks ++ [k].

Definition fid_keys (l : list Move.t) : list (option string) :=
  fold_left (fun ks m => keys_add ks (Move.foundation_identifier m)) l [].

(* ================================================================== *)
(** * Properties *)

Lemma suit_eqb_eq a b : suit_eqb a b = true <-> a = b.
Proof. destruct a, b; simpl; split; congruence. Qed.

Lemma rank_eqb_eq a b : rank_eqb a b = true <-> a = b.
Proof. destruct a, b; simpl; split; congruence. Qed.

Lemma card_equals_eq c o : PlayingCard.equals c o = true <-> c = o.
Proof.
  destruct c as [s r p], o as [s' r' p']; unfold PlayingCard.equals; simpl.
  rewrite !andb_true_iff, suit_eqb_eq, rank_eqb_eq, Nat.eqb_eq.
  split; [intros [[-> ->] ->]; reflexivity | intros H; inversion H; auto].
Qed.

(** ** Game over *)

Lemma is_game_over_iff gs :
  is_game_over gs = true <->
  exists p, In p (players gs) /\ cards_in_nertz (PlayerState.deck p) = [].
Proof.
  unfold is_game_over; rewrite existsb_exists.
  split; intros [p [Hin H]]; exists p; split; auto.
  - apply Nat.eqb_eq in H; now destruct (cards_in_nertz _).
  - now rewrite H.
Qed.

(** C4 (code bug): when some player's nertz pile is empty, [is_game_over]
    is true, but [play_turn] does not fail with a game-over error: it
    returns normally, computes no scores and leaves the engine (game state
    and turn counter) unchanged.  [GameOverError] is declared in
    exceptions.py and raised nowhere. *)
Theorem C4_game_over_turn_is_noop (foundation_distance : nat -> string -> Q) (e : Engine)
  (H : exists p, In p (players (game_state e)) /\ cards_in_nertz (PlayerState.deck p) = []) :
  is_game_over (game_state e) = true /\ play_turn foundation_distance e = Done tt e.
Proof.
  assert (Hg : is_game_over (game_state e) = true) by (apply is_game_over_iff; exact H).
  split; [exact Hg|].
  unfold play_turn; rewrite Hg; reflexivity.
Qed.

Lemma C4_game_over_turn_is_noop_witness :
  let e := mkEngine (mkGame 1 [PlayerState.mk 0 0 (with_nertz deck_ex [])] []) 3 in
  (exists p, In p (players (game_state e)) /\ cards_in_nertz (PlayerState.deck p) = [])
  /\ is_game_over (game_state e) = true /\ play_turn dist_ex e = Done tt e.
Proof.
  intros e.
  assert (H : exists p, In p (players (game_state e)) /\ cards_in_nertz (PlayerState.deck p) = []).
  { exists (PlayerState.mk 0 0 (with_nertz deck_ex [])); simpl; split; [left; reflexivity | reflexivity]. }
  split; [exact H | apply (C4_game_over_turn_is_noop dist_ex e H)].
Defined.

(** ** Pile accessors *)

Lemma py_last_nil {A} : @py_last A [] = None.
Proof. reflexivity. Qed.

Lemma py_last_app {A} (l : list A) x : py_last (l ++ [x]) = Some x.
Proof. unfold py_last; now rewrite rev_app_distr. Qed.

Lemma py_last_none {A} (l : list A) : py_last l = None <-> l = [].
Proof.
  split; [|intros ->; reflexivity].
  destruct l as [|a l] using rev_ind; [auto|]. now rewrite py_last_app.
Qed.

(** The accessors that do not raise: on an empty pile they give [None]. *)
Lemma top_accessors_empty d :
  (top_nertz_card d = None <-> cards_in_nertz d = []) /\
  (forall i, nth_error (cards_in_river d) i = Some [] ->
             nth_error (river_slot_top_cards d) i = Some None).
Proof.
  split; [apply py_last_none|].
  intros i H; unfold river_slot_top_cards; now rewrite nth_error_map, H.
Qed.

(** For a positive [count], [top_stream_cards] raises exactly when fewer
    than [count] cards are in the stream, and otherwise returns the last
    [count] cards. *)
Lemma top_stream_cards_pos d (count : Z) (Hc : (1 <= count)%Z) :
  (Z.of_nat (List.length (cards_in_stream d)) < count)%Z /\
     top_stream_cards d count = Err (ValueError "Not enough cards in stream")
  \/ (count <= Z.of_nat (List.length (cards_in_stream d)))%Z /\
     top_stream_cards d count =
       Ok (skipn (List.length (cards_in_stream d) - Z.to_nat count) (cards_in_stream d)).
Proof.
  unfold top_stream_cards, py_slice_from.
  destruct (Z.ltb_spec (Z.of_nat (List.length (cards_in_stream d))) count) as [Hl|Hl].
  - left; auto.
  - right; split; [exact Hl|].
    destruct (Z.ltb_spec (- count) 0) as [_|]; [|lia].
    f_equal; f_equal; lia.
Qed.

(** C9 (code_bug): [top_stream_cards(0)] slices [stream[-0:]], which is the
    whole stream, instead of returning no card. *)
Lemma C9_top_stream_cards_zero :
  top_stream_cards (with_stream deck_ex [card_d9; card_h7]) 0 = Ok [card_d9; card_h7].
Proof. reflexivity. Qed.

(** ** River-move generation *)

(** Slot [i] accepts [card]: it is empty or its top card takes [card] by
    solitaire adjacency. *)
Definition slot_accepts (rivers : list (list Card)) (card : Card) (i : nat) : bool :=
  match nth_error rivers i with
  | Some slot => match py_last slot with
                 | None => true
                 | Some top => _is_valid_solitaire_move card top
                 end
  | None => false
  end.

Lemma river_scan_spec rivers card n k :
  k + n <= List.length rivers ->
  exists r, river_scan rivers card (seq k n) = Ok r /\
  match r with
  | Some i => k <= i < k + n /\ slot_accepts rivers card i = true /\
              forall j, k <= j < i -> slot_accepts rivers card j = false
  | None => forall j, k <= j < k + n -> slot_accepts rivers card j = false
  end.
Proof.
  revert k; induction n as [|n IH]; intros k Hk.
  - exists None; split; [reflexivity|]. intros j Hj; lia.
  - simpl. unfold py_get.
    destruct (nth_error rivers k) as [slot|] eqn:Hs;
      [|apply nth_error_None in Hs; lia].
    simpl.
    assert (Hacc : slot_accepts rivers card k =
                   match py_last slot with None => true
                   | Some top => _is_valid_solitaire_move card top end)
      by (unfold slot_accepts; now rewrite Hs).
    destruct (py_last slot) as [top|] eqn:Ht.
    + destruct (_is_valid_solitaire_move card top) eqn:Hv.
      * exists (Some k); split; [reflexivity|]. split; [lia|]. split; [auto|].
        intros j Hj; lia.
      * destruct (IH (S k)) as [r [Hr Hm]]; [lia|].
        exists r; split; [exact Hr|].
        destruct r as [i|].
        -- destruct Hm as [Hi [Ha Hb]]. split; [lia|]. split; [exact Ha|].
           intros j Hj. destruct (Nat.eq_dec j k) as [->|]; [congruence|]. apply Hb; lia.
        -- intros j Hj. destruct (Nat.eq_dec j k) as [->|]; [congruence|]. apply Hm; lia.
    + exists (Some k); split; [reflexivity|]. split; [lia|]. split; [auto|].
      intros j Hj; lia.
Qed.

(** C10: for a nertz or stream card, [generate_river_move] never raises and
    targets the lowest-indexed slot that is empty or accepts the card by
    solitaire adjacency; it returns no move exactly when no slot does. *)
Theorem C10_river_move_first_slot (gs : GameState) (player_index : nat) (card : Card)
  (source_pile : LocationType) (player : PlayerState.t)
  (Hsrc : source_pile <> RiverPile)
  (Hp : nth_error (players gs) player_index = Some player)
  (H4 : List.length (cards_in_river (PlayerState.deck player)) = 4) :
  let rivers := cards_in_river (PlayerState.deck player) in
  exists r, generate_river_move gs player_index card source_pile = Ok r /\
  match r with
  | Some m =>
      exists i, i < 4 /\ Move.river_slot_destination m = Some i /\
                slot_accepts rivers card i = true /\
                (forall j, j < i -> slot_accepts rivers card j = false) /\
                Move.source_pile m = source_pile /\
                Move.destination_pile m = RiverPile /\ Move.card m = Some card
  | None => forall i, i < 4 -> slot_accepts rivers card i = false
  end.
Proof.
  intros rivers.
  destruct (river_scan_spec rivers card 4 0) as [r [Hr Hm]]; [unfold rivers; lia|].
  unfold generate_river_move.
  assert (Hl : loc_eqb source_pile RiverPile = false)
    by (destruct source_pile; simpl; congruence).
  rewrite Hl. unfold py_get at 1; rewrite Hp; cbn [rbind].
  unfold river_range; fold rivers; rewrite Hr; cbn [rbind].
  destruct r as [i|].
  - unfold make_move; simpl. rewrite Hl, ?andb_false_r; simpl.
    eexists; split; [reflexivity|].
    exists i; simpl. destruct Hm as [Hi [Ha Hb]].
    repeat split; auto; try lia. intros j Hj; apply Hb; lia.
  - eexists; split; [reflexivity|]. intros i Hi; apply Hm; lia.
Qed.

Lemma C10_river_move_first_slot_witness :
  DeckPile <> RiverPile /\
  nth_error (players gs_flipped) 0 = Some (PlayerState.mk 0 0 deck_flipped) /\
  List.length (cards_in_river deck_flipped) = 4 /\
  exists r, generate_river_move gs_flipped 0 card_d9 DeckPile = Ok r /\
  match r with
  | Some m =>
      exists i, i < 4 /\ Move.river_slot_destination m = Some i /\
                slot_accepts (cards_in_river deck_flipped) card_d9 i = true /\
                (forall j, j < i -> slot_accepts (cards_in_river deck_flipped) card_d9 j = false) /\
                Move.source_pile m = DeckPile /\
                Move.destination_pile m = RiverPile /\ Move.card m = Some card_d9
  | None => forall i, i < 4 -> slot_accepts (cards_in_river deck_flipped) card_d9 i = false
  end.
Proof.
  split; [discriminate|]. split; [reflexivity|]. split; [reflexivity|].
  apply (C10_river_move_first_slot gs_flipped 0 card_d9 DeckPile
           (PlayerState.mk 0 0 deck_flipped)); [discriminate | reflexivity | reflexivity].
Defined.

(** ** Execution of an Ace played to a foundation *)

Definition lakes (gs : GameState) : list (list Card) :=
  map (fun p => cards_in_lake (PlayerState.deck p)) (players gs).

(** C1 (code_bug): the Ace move is a legal move of player 0.  The engine's
    [execute_move] creates the foundation but leaves the lake empty, while
    [MoveExecutor.execute] creates it and appends the Ace to the lake. *)
Lemma C1_engine_skips_lake :
  (exists ms, calculate_legal_moves dist_ex gs_flipped 0 = Ok ms /\ In move_ace ms) /\
  (exists gs', execute_move move_ace gs_flipped = Done tt gs' /\
     dict_get (foundations gs') (foundation_key 0 spades) =
       Some (Foundation.mk spades [card_sA] 0 (foundation_key 0 spades)) /\
     lakes gs' = [[]]) /\
  (exists gs', execute move_ace gs_flipped = Done tt gs' /\
     dict_get (foundations gs') (foundation_key 0 spades) =
       Some (Foundation.mk spades [card_sA] 0 (foundation_key 0 spades)) /\
     lakes gs' = [[card_sA]]).
Proof.
  split; [|split].
  - eexists; split; [vm_compute; reflexivity|]. left; reflexivity.
  - eexists; split; [vm_compute; reflexivity|]. split; reflexivity.
  - eexists; split; [vm_compute; reflexivity|]. split; reflexivity.
Qed.

(** ** Execution of a river-to-river move *)

Definition rivers_of (gs : GameState) : list (list (list Card)) :=
  map (fun p => cards_in_river (PlayerState.deck p)) (players gs).

(** C3 (code_bug): slot 0 holds the 7 of hearts under the 6 of spades and
    the whole-pile move onto the 8 of clubs of slot 1 is generated.  The
    engine's [execute_move] checks the bottom card but pops the top one and
    places only the bottom card: the 6 of spades disappears and the 7 of
    hearts is in two slots.  [MoveExecutor.execute] pops the bottom card
    but also moves only that card: the 6 of spades stays in slot 0.  In
    neither is slot 0 emptied with both cards moved to slot 1. *)
Lemma C3_river_to_river_moves_one_card :
  (exists ms, calculate_legal_moves dist_ex gs_flipped 0 = Ok ms /\ In move_r2r ms) /\
  (exists gs', execute_move move_r2r gs_flipped = Done tt gs' /\
     rivers_of gs' = [[[card_h7]; [card_c8; card_h7]; []; []]]) /\
  (exists gs', execute move_r2r gs_flipped = Done tt gs' /\
     rivers_of gs' = [[[card_s6]; [card_c8; card_h7]; []; []]]).
Proof.
  split; [|split].
  - eexists; split; [vm_compute; reflexivity|]. right; left; reflexivity.
  - eexists; split; [vm_compute; reflexivity|]. reflexivity.
  - eexists; split; [vm_compute; reflexivity|]. reflexivity.
Qed.

(** ** Deck moves *)

(** C5 (code_bug): when a player's stream is empty, [_add_deck_moves]
    raises: it builds the flip move, then [top_stream_cards(count=1)]
    raises before the [None] check on the top card is reached. *)
Theorem C5_deck_moves_raise_on_empty_stream (foundation_distance : nat -> string -> Q)
  (gs : GameState) (player_index : nat) (player : PlayerState.t) (legal_moves : list Move.t)
  (Hp : nth_error (players gs) player_index = Some player)
  (Hs : cards_in_stream (PlayerState.deck player) = []) :
  _add_deck_moves foundation_distance gs player_index legal_moves =
    Err (ValueError "Not enough cards in stream").
Proof.
  unfold _add_deck_moves, py_get at 1. rewrite Hp. cbn [rbind].
  unfold top_stream_cards. rewrite Hs. reflexivity.
Qed.

(** The witness: player 0 of [gs_ex] has an empty stream and a card left
    in the deck; the whole legal-move computation raises. *)
Lemma C5_deck_moves_raise_on_empty_stream_witness :
  nth_error (players gs_ex) 0 = Some (PlayerState.mk 0 0 deck_ex) /\
  cards_in_stream deck_ex = [] /\ cards_in_deck deck_ex <> [] /\
  _add_deck_moves dist_ex gs_ex 0 [] = Err (ValueError "Not enough cards in stream") /\
  calculate_legal_moves dist_ex gs_ex 0 = Err (ValueError "Not enough cards in stream").
Proof.
  split; [reflexivity|]. split; [reflexivity|]. split; [discriminate|].
  split; [apply (C5_deck_moves_raise_on_empty_stream dist_ex gs_ex 0
                   (PlayerState.mk 0 0 deck_ex) []); reflexivity|].
  vm_compute; reflexivity.
Defined.

(** ** Priority model *)

Lemma strategic_bonus_cases fs src dst card fid :
  let bonus := _calculate_strategic_bonus fs src dst card fid in
  (exists c, card = Some c /\ src = NertzPile /\ dst = FoundationPile /\
     (forall f, In f (dict_values fs) -> Foundation.suit f = PlayingCard.suit c ->
                fid = Some (Foundation.identifier f)) /\
     bonus = ((Z.of_nat (rank_index (PlayingCard.rank c) + 1) # 13) * 20)%Q /\
     ~ (bonus == 0)%Q)
  \/
  (bonus = 0%Q /\
   ~ (exists c, card = Some c /\ src = NertzPile /\ dst = FoundationPile /\
       (forall f, In f (dict_values fs) -> Foundation.suit f = PlayingCard.suit c ->
                  fid = Some (Foundation.identifier f)))).
Proof.
  intros bonus. unfold bonus, _calculate_strategic_bonus.
  destruct card as [c|];
    [|right; split; [reflexivity|]; intros [c' [H _]]; discriminate].
  destruct (loc_eqb src NertzPile && loc_eqb dst FoundationPile) eqn:Hsd.
  - apply andb_true_iff in Hsd as [Hs Hd].
    destruct src; try discriminate Hs. destruct dst; try discriminate Hd.
    destruct (existsb _ (dict_values fs)) eqn:Hex.
    + right. split; [reflexivity|].
      intros [c' [Hc [_ [_ Hall]]]]. injection Hc as <-.
      apply existsb_exists in Hex as [f [Hin Hf]].
      apply andb_true_iff in Hf as [Hsu Hid]. apply suit_eqb_eq in Hsu.
      specialize (Hall f Hin Hsu). rewrite Hall in Hid. simpl in Hid.
      rewrite String.eqb_refl in Hid. discriminate.
    + left. exists c. split; [reflexivity|]. split; [reflexivity|]. split; [reflexivity|].
      split.
      * intros f Hin Hsu.
        destruct (suit_eqb (Foundation.suit f) (PlayingCard.suit c)
                  && str_opt_neqb (Foundation.identifier f) fid) eqn:Hf.
        { exfalso. assert (Ht : existsb (fun f => suit_eqb (Foundation.suit f) (PlayingCard.suit c)
                        && str_opt_neqb (Foundation.identifier f) fid) (dict_values fs) = true)
            by (apply existsb_exists; exists f; auto).
          rewrite Ht in Hex; discriminate. }
        rewrite Hsu in Hf.
        assert (Hss : suit_eqb (PlayingCard.suit c) (PlayingCard.suit c) = true)
          by (apply suit_eqb_eq; reflexivity).
        rewrite Hss in Hf; simpl in Hf.
        destruct fid as [s|]; simpl in Hf; [|discriminate].
        apply negb_false_iff in Hf. apply String.eqb_eq in Hf. now subst.
      * split; [reflexivity|]. unfold Qeq; simpl; lia.
  - right. split; [reflexivity|].
    intros [c' [_ [-> [-> _]]]]. discriminate.
Qed.

(** C8: the priority of every constructed move is
    [base_weight * (1 - distance * 0.3) + strategic_bonus], with the base
    weights of [MOVE_TYPE_WEIGHTS] (every [MoveType] is listed, so the
    default 0.5 is never used), and a bonus that is nonzero exactly for a
    nertz card played to a foundation when no foundation of the card's suit
    with another identifier exists, where it is [(rank_index+1)/13 * 20]. *)
Theorem C8_priority_formula gs player_index src dst card distance move_type fid rs rd m
  (H : make_move gs player_index src dst card distance move_type fid rs rd = Ok m) :
  Move.priority m =
    (weights_get MOVE_TYPE_WEIGHTS move_type (1#2) * (1 - distance * (3#10))
     + _calculate_strategic_bonus (foundations gs) src dst card fid)%Q /\
  weights_get MOVE_TYPE_WEIGHTS NERTZ_TO_FOUNDATION (1#2) = (1#1)%Q /\
  weights_get MOVE_TYPE_WEIGHTS NERTZ_TO_RIVER (1#2) = (9#10)%Q /\
  weights_get MOVE_TYPE_WEIGHTS RIVER_TO_FOUNDATION (1#2) = (5#10)%Q /\
  weights_get MOVE_TYPE_WEIGHTS DECK_TO_FOUNDATION (1#2) = (4#10)%Q /\
  weights_get MOVE_TYPE_WEIGHTS DECK_TO_RIVER (1#2) = (3#10)%Q /\
  weights_get MOVE_TYPE_WEIGHTS RIVER_TO_RIVER (1#2) = (3#10)%Q /\
  weights_get MOVE_TYPE_WEIGHTS DECK_TO_DECK (1#2) = (1#10)%Q /\
  (forall k, weights_get [] k (1#2) = (1#2)%Q) /\
  ((exists c, card = Some c /\ src = NertzPile /\ dst = FoundationPile /\
     (forall f, In f (dict_values (foundations gs)) ->
                Foundation.suit f = PlayingCard.suit c -> fid = Some (Foundation.identifier f)) /\
     _calculate_strategic_bonus (foundations gs) src dst card fid =
       ((Z.of_nat (rank_index (PlayingCard.rank c) + 1) # 13) * 20)%Q /\
     ~ (_calculate_strategic_bonus (foundations gs) src dst card fid == 0)%Q)
   \/
   (_calculate_strategic_bonus (foundations gs) src dst card fid = 0%Q /\
    ~ (exists c, card = Some c /\ src = NertzPile /\ dst = FoundationPile /\
       (forall f, In f (dict_values (foundations gs)) ->
                  Foundation.suit f = PlayingCard.suit c -> fid = Some (Foundation.identifier f))))).
Proof.
  split.
  - unfold make_move in H.
    repeat match type of H with
           | context [if ?b then _ else _] => destruct b
           end; try discriminate.
    injection H as <-. reflexivity.
  - do 8 (split; [reflexivity|]). apply strategic_bonus_cases.
Qed.

Lemma C8_priority_formula_witness :
  exists m, make_move gs_flipped 0 NertzPile FoundationPile (Some card_sA) (1#2)
              NERTZ_TO_FOUNDATION (Some (foundation_key 0 spades)) None None = Ok m /\
  Move.priority m =
    (weights_get MOVE_TYPE_WEIGHTS NERTZ_TO_FOUNDATION (1#2) * (1 - (1#2) * (3#10))
     + _calculate_strategic_bonus (foundations gs_flipped) NertzPile FoundationPile
         (Some card_sA) (Some (foundation_key 0 spades)))%Q.
Proof.
  eexists; split; [reflexivity|].
  eapply (C8_priority_formula gs_flipped 0 NertzPile FoundationPile (Some card_sA) (1#2)
            NERTZ_TO_FOUNDATION (Some (foundation_key 0 spades)) None None).
  reflexivity.
Defined.

(** ** Conflict resolution *)

Section KeyOrder.

Lemma Qlt_bool_iff a b : Qlt_bool a b = true <-> (a < b)%Q.
Proof.
  unfold Qlt_bool. rewrite negb_true_iff.
  split; intros H.
  - destruct (Qlt_le_dec a b) as [|Hle]; [assumption|].
    apply Qle_bool_iff in Hle; congruence.
  - destruct (Qle_bool b a) eqn:E; [|reflexivity].
    apply Qle_bool_iff in E; lra.
Qed.

Let lex (x y : Move.t) : Prop :=
  (- Move.priority x < - Move.priority y)%Q \/
  ((- Move.priority x == - Move.priority y)%Q /\
   ((Move.distance x < Move.distance y)%Q \/
    ((Move.distance x == Move.distance y)%Q /\ Move.player_index x < Move.player_index y))).

Lemma key_lt_iff x y : key_lt x y = true <-> lex x y.
Proof.
  unfold key_lt, lex.
  destruct (Qeq_bool (- Move.priority x) (- Move.priority y)) eqn:E1; simpl.
  - apply Qeq_bool_iff in E1.
    destruct (Qeq_bool (Move.distance x) (Move.distance y)) eqn:E2; simpl.
    + apply Qeq_bool_iff in E2. rewrite Nat.ltb_lt. split.
      * intros H; right; split; [exact E1|]; right; auto.
      * intros [H|[_ [H|[_ H]]]]; [lra|lra|exact H].
    + rewrite Qlt_bool_iff. split.
      * intros H; right; auto.
      * intros [H|[_ [H|[H _]]]]; [lra|exact H|].
        exfalso; apply Qeq_bool_iff in H; congruence.
  - rewrite Qlt_bool_iff. split.
    + intros H; left; exact H.
    + intros [H|[H _]]; [exact H|]. apply Qeq_bool_iff in H; congruence.
Qed.

Lemma key_lt_irrefl x : key_lt x x = false.
Proof.
  destruct (key_lt x x) eqn:E; [|reflexivity].
  apply key_lt_iff in E; unfold lex in E; exfalso; destruct E as [H|[_ [H|[_ H]]]]; [lra|lra|lia].
Qed.

Lemma key_lt_asym x y : key_lt x y = true -> key_lt y x = false.
Proof.
  intros H. destruct (key_lt y x) eqn:E; [|reflexivity].
  apply key_lt_iff in H, E; unfold lex in H, E. exfalso.
  destruct H as [H|[H1 [H|[H2 H]]]]; destruct E as [E|[E1 [E|[E2 E]]]]; lra || lia.
Qed.

(** Not being smaller is transitive: the key order is a total preorder. *)
Lemma key_lt_false_trans x y z :
  key_lt x y = false -> key_lt y z = false -> key_lt x z = false.
Proof.
  intros Hxy Hyz. destruct (key_lt x z) eqn:E; [|reflexivity]. exfalso.
  apply key_lt_iff in E; unfold lex in E.
  assert (Nxy : ~ lex x y) by (rewrite <- key_lt_iff; congruence).
  assert (Nyz : ~ lex y z) by (rewrite <- key_lt_iff; congruence).
  unfold lex in Nxy, Nyz.
  set (px := (- Move.priority x)%Q) in *. set (py := (- Move.priority y)%Q) in *.
  set (pz := (- Move.priority z)%Q) in *.
  set (dx := Move.distance x) in *. set (dy := Move.distance y) in *.
  set (dz := Move.distance z) in *.
  destruct (Qlt_le_dec px py) as [H1|H1]; [apply Nxy; left; exact H1|].
  destruct (Qlt_le_dec py pz) as [H2|H2]; [apply Nyz; left; exact H2|].
  destruct E as [E|[E1 E]]; [lra|].
  assert (Exy : (px == py)%Q) by lra. assert (Eyz : (py == pz)%Q) by lra.
  destruct (Qlt_le_dec dx dy) as [H3|H3]; [apply Nxy; right; split; [exact Exy|left; exact H3]|].
  destruct (Qlt_le_dec dy dz) as [H4|H4]; [apply Nyz; right; split; [exact Eyz|left; exact H4]|].
  destruct E as [E|[E2 E]]; [lra|].
  assert (Dxy : (dx == dy)%Q) by lra. assert (Dyz : (dy == dz)%Q) by lra.
  destruct (Nat.lt_ge_cases (Move.player_index x) (Move.player_index y)) as [H5|H5];
    [apply Nxy; right; split; [exact Exy|right; split; [exact Dxy|exact H5]]|].
  destruct (Nat.lt_ge_cases (Move.player_index y) (Move.player_index z)) as [H6|H6];
    [apply Nyz; right; split; [exact Eyz|right; split; [exact Dyz|exact H6]]|].
  lia.
Qed.

End KeyOrder.

Lemma insert_by_key_perm m l : Permutation (insert_by_key m l) (m :: l).
Proof.
  induction l as [|y t IH]; simpl; [reflexivity|].
  destruct (key_lt y m); [|reflexivity].
  etransitivity; [apply perm_skip, IH|apply perm_swap].
Qed.

Lemma sort_by_key_perm l : Permutation (sort_by_key l) l.
Proof.
  induction l as [|m t IH]; simpl; [reflexivity|].
  etransitivity; [apply insert_by_key_perm|apply perm_skip, IH].
Qed.

(** The first element after sorting has a key that no move of the group
    beats. *)
Lemma sort_by_key_head_min g w r :
  sort_by_key g = w :: r -> In w g /\ forall m, In m g -> key_lt m w = false.
Proof.
  intros Hs. split.
  { apply (Permutation_in _ (sort_by_key_perm g)). rewrite Hs; left; reflexivity. }
  revert w r Hs. induction g as [|m t IH]; intros w r Hs; [discriminate|].
  simpl in Hs. destruct (sort_by_key t) as [|y r'] eqn:Ht.
  - simpl in Hs. injection Hs as <- _.
    assert (t = []) as ->.
    { apply Permutation_nil. rewrite <- Ht. apply sort_by_key_perm. }
    intros x [<-|[]]; apply key_lt_irrefl.
  - specialize (IH y r' eq_refl).
    simpl in Hs. destruct (key_lt y m) eqn:Eym.
    + injection Hs as <- _.
      intros x [<-|Hx]; [apply key_lt_asym; exact Eym|apply IH; exact Hx].
    + injection Hs as <- _.
      intros x [<-|Hx]; [apply key_lt_irrefl|].
      apply (key_lt_false_trans x y m); [apply IH; exact Hx|exact Eym].
Qed.

Lemma opt_str_eqb_eq a b : opt_str_eqb a b = true <-> a = b.
Proof.
  destruct a as [a|], b as [b|]; simpl; try (split; congruence).
  rewrite String.eqb_eq; split; congruence.
Qed.

Lemma filter_all_false {A} (f : A -> bool) l :
  (forall x, In x l -> f x = false) -> filter f l = [].
Proof.
  induction l as [|x t IH]; intros H; simpl; [reflexivity|].
  rewrite (H x (or_introl eq_refl)). apply IH; intros y Hy; apply H; right; exact Hy.
Qed.

Lemma filter_all_true {A} (f : A -> bool) l :
  (forall x, In x l -> f x = true) -> filter f l = l.
Proof.
  induction l as [|x t IH]; intros H; simpl; [reflexivity|].
  rewrite (H x (or_introl eq_refl)), IH; [reflexivity|].
  intros y Hy; apply H; right; exact Hy.
Qed.

Lemma filter_and {A} (f g : A -> bool) l :
  filter f (filter g l) = filter (fun x => g x && f x) l.
Proof.
  induction l as [|x t IH]; simpl; [reflexivity|].
  destruct (g x); simpl; [destruct (f x)|]; rewrite ?IH; reflexivity.
Qed.

Lemma filter_flat_map {A B} (f : B -> bool) (h : A -> list B) l :
  filter f (flat_map h l) = flat_map (fun x => filter f (h x)) l.
Proof.
  induction l as [|x t IH]; simpl; [reflexivity|]. rewrite filter_app, IH; reflexivity.
Qed.

(** Over a duplicate-free list of keys, a [flat_map] that is empty away
    from [k] is its value at [k], when [k] occurs. *)
Lemma flat_map_single (h : option string -> list Move.t) ks k :
  NoDup ks -> (forall k', k' <> k -> h k' = []) ->
  flat_map h ks = if existsb (opt_str_eqb k) ks then h k else [].
Proof.
  intros Hnd Hh. induction Hnd as [|k' t Hnin Hnd IH]; simpl; [reflexivity|].
  destruct (opt_str_eqb k k') eqn:E; simpl.
  - apply opt_str_eqb_eq in E; subst k'.
    rewrite flat_map_concat_map, map_ext_in with (g := fun _ => []).
    + clear. induction t; simpl; [apply app_nil_r|]. assumption.
    + intros x Hx. apply Hh. intros ->. contradiction.
  - rewrite Hh, IH; [reflexivity|]. intros ->.
    rewrite (proj2 (opt_str_eqb_eq k k) eq_refl) in E; discriminate.
Qed.

Lemma resolve_loop ms exe0 cm0 exe cm :
  py_for ms (exe0, cm0) resolve_step = Ok (exe, cm) ->
  exe = exe0 ++ filter passes ms /\
  cm = fold_left (fun cm m => cmap_add cm (Move.foundation_identifier m) m)
                 (filter is_conflict ms) cm0.
Proof.
  revert exe0 cm0. induction ms as [|m t IH]; intros exe0 cm0 H; simpl in H.
  - injection H as <- <-. rewrite app_nil_r; split; reflexivity.
  - unfold passes, is_conflict, is_ace_card in *. simpl.
    unfold resolve_step in H.
    destruct (loc_eqb (Move.destination_pile m) FoundationPile) eqn:Ed; simpl in H |- *.
    + unfold move_card in H. destruct (Move.card m) as [c|]; simpl in H; [|discriminate].
      destruct (rank_eqb (PlayingCard.rank c) rank_A); simpl in H |- *.
      * apply IH in H as [-> ->]. rewrite <- app_assoc; split; reflexivity.
      * apply IH in H as [-> ->]. split; reflexivity.
    + apply IH in H as [-> ->]. rewrite <- app_assoc; split; reflexivity.
Qed.

Lemma fid_keys_snoc l m :
  fid_keys (l ++ [m]) = keys_add (fid_keys l) (Move.foundation_identifier m).
Proof. unfold fid_keys. rewrite fold_left_app. reflexivity. Qed.

Lemma existsb_opt_str k ks : existsb (opt_str_eqb k) ks = true <-> In k ks.
Proof.
  rewrite existsb_exists. split.
  - intros [x [Hx E]]. apply opt_str_eqb_eq in E; subst; exact Hx.
  - intros H. exists k; split; [exact H|]. apply opt_str_eqb_eq; reflexivity.
Qed.

Lemma fid_keys_spec l :
  NoDup (fid_keys l) /\
  forall k, In k (fid_keys l) <-> exists m, In m l /\ Move.foundation_identifier m = k.
Proof.
  induction l as [|m l IH] using rev_ind.
  - split; [constructor|]. intros k; simpl; split; [intros []|intros [m [[] _]]].
  - destruct IH as [Hnd Hin]. rewrite fid_keys_snoc. unfold keys_add.
    destruct (existsb (opt_str_eqb (Move.foundation_identifier m)) (fid_keys l)) eqn:E.
    + apply existsb_opt_str in E. split; [exact Hnd|]. intros k; rewrite Hin. split.
      * intros [x [Hx <-]]; exists x; split; [apply in_or_app; left|]; auto.
      * intros [x [Hx <-]]. apply in_app_or in Hx as [Hx|[<-|[]]]; [eauto|].
        apply Hin; exact E.
    + assert (Hn : ~ In (Move.foundation_identifier m) (fid_keys l))
        by (rewrite <- existsb_opt_str; congruence).
      split.
      * apply NoDup_app; [exact Hnd|repeat constructor; simpl; tauto|].
        intros x Hx [<-|[]]; contradiction.
      * intros k. rewrite in_app_iff, Hin. simpl. split.
        -- intros [[x [Hx <-]]|[<-|[]]]; [exists x|exists m]; rewrite in_app_iff; simpl; auto.
        -- intros [x [Hx <-]]. apply in_app_or in Hx as [Hx|[<-|[]]]; eauto.
Qed.

Lemma cmap_add_map ks (G : option string -> list Move.t) k0 m :
  NoDup ks ->
  cmap_add (map (fun k => (k, G k)) ks) k0 m =
  map (fun k => (k, G k ++ if opt_str_eqb k0 k then [m] else [])) ks ++
  (if existsb (opt_str_eqb k0) ks then [] else [(k0, [m])]).
Proof.
  intros Hnd. induction Hnd as [|k ks Hnin Hnd IH]; simpl; [reflexivity|].
  destruct (opt_str_eqb k0 k) eqn:E; simpl.
  - apply opt_str_eqb_eq in E; subst k0. rewrite app_nil_r. f_equal.
    apply map_ext_in. intros x Hx. destruct (opt_str_eqb k x) eqn:E'; [|rewrite app_nil_r; reflexivity].
    apply opt_str_eqb_eq in E'; subst; contradiction.
  - rewrite app_nil_r, IH. reflexivity.
Qed.

Lemma cm_of_spec l :
  cm_of l = map (fun k => (k, filter (has_fid k) l)) (fid_keys l).
Proof.
  induction l as [|m l IH] using rev_ind; [reflexivity|].
  unfold cm_of in *. rewrite fold_left_app. simpl. rewrite IH, fid_keys_snoc.
  destruct (fid_keys_spec l) as [Hnd Hin].
  rewrite cmap_add_map by exact Hnd. unfold keys_add.
  assert (Hf : forall k, filter (has_fid k) (l ++ [m]) =
                         filter (has_fid k) l ++
                         if opt_str_eqb (Move.foundation_identifier m) k then [m] else []).
  { intros k. rewrite filter_app. simpl. unfold has_fid.
    destruct (opt_str_eqb (Move.foundation_identifier m) k); reflexivity. }
  destruct (existsb (opt_str_eqb (Move.foundation_identifier m)) (fid_keys l)) eqn:E.
  - rewrite app_nil_r. apply map_ext_in; intros k _; rewrite Hf; reflexivity.
  - rewrite map_app. simpl. f_equal.
    + apply map_ext_in; intros k _; rewrite Hf; reflexivity.
    + rewrite Hf. rewrite (proj2 (opt_str_eqb_eq _ _) eq_refl). f_equal. f_equal.
      rewrite filter_all_false; [reflexivity|].
      intros x Hx. unfold has_fid. destruct (opt_str_eqb _ _) eqn:Ex; [|reflexivity].
      apply opt_str_eqb_eq in Ex.
      assert (In (Move.foundation_identifier m) (fid_keys l)) by (apply Hin; eauto).
      apply existsb_opt_str in H; congruence.
Qed.

Lemma resolve_conflict_hd g : _resolve_foundation_conflict g = hd_error (sort_by_key g).
Proof. destruct g as [|m [|]]; reflexivity. Qed.

(** C6: [ConflictResolver.resolve] passes through, in order, every move
    that is not to a foundation or whose card is an Ace; of the moves
    aiming at one foundation identifier exactly one survives, the first
    after sorting by [(-priority, distance, player_index)], and no move
    of its group has a smaller key; every surviving move is one of these.
    [resolve] is a function of its input, so the winner is reproducible;
    two moves that may both win are tied on all three keys. *)
Theorem C6_resolve_spec ms out :
  resolve ms = Ok out ->
  filter passes out = filter passes ms /\
  (forall k, filter (targets k) out =
             option_list (hd_error (sort_by_key (filter (targets k) ms)))) /\
  (forall m, In m out -> passes m = true \/ targets (Move.foundation_identifier m) m = true) /\
  (forall k w, filter (targets k) out = [w] ->
     In w (filter (targets k) ms) /\
     forall m, In m (filter (targets k) ms) -> key_lt m w = false).
Proof.
  unfold resolve. destruct (py_for ms ([], []) resolve_step) as [[exe cm]|e] eqn:Hl;
    simpl; [|discriminate].
  intros H; injection H as <-.
  apply resolve_loop in Hl as [-> ->]. simpl.
  set (l := filter is_conflict ms).
  change (fold_left _ l []) with (cm_of l). rewrite cm_of_spec.
  destruct (fid_keys_spec l) as [Hnd Hin].
  set (W := fun k => option_list (hd_error (sort_by_key (filter (has_fid k) l)))).
  assert (Hwin : flat_map (fun kv => match _resolve_foundation_conflict (snd kv) with
                                     | Some w => [w] | None => [] end)
                   (map (fun k => (k, filter (has_fid k) l)) (fid_keys l))
                 = flat_map W (fid_keys l)).
  { rewrite !flat_map_concat_map, map_map. f_equal. apply map_ext; intros k. simpl.
    rewrite resolve_conflict_hd. unfold W. destruct (hd_error _); reflexivity. }
  rewrite Hwin.
  (* every element of [W k] is a move of [l] with identifier [k] *)
  assert (HW : forall k w, In w (W k) -> is_conflict w = true /\ has_fid k w = true).
  { intros k w Hw. unfold W in Hw.
    destruct (sort_by_key (filter (has_fid k) l)) as [|w' r] eqn:Hs; simpl in Hw; [contradiction|].
    destruct Hw as [<-|[]].
    apply sort_by_key_head_min in Hs as [Hin' _].
    apply filter_In in Hin' as [Hl' Hk]. unfold l in Hl'. apply filter_In in Hl' as [_ Hc].
    split; assumption. }
  assert (Htk : forall k, filter (targets k) ms = filter (has_fid k) l).
  { intros k. unfold l. rewrite filter_and. reflexivity. }
  assert (Hb : forall k, filter (targets k) (filter passes ms ++ flat_map W (fid_keys l))
                         = option_list (hd_error (sort_by_key (filter (targets k) ms)))).
  { intros k. rewrite filter_app, filter_and.
    rewrite filter_all_false with (l := ms).
    2:{ intros x _. unfold passes, targets. destruct (is_conflict x); reflexivity. }
    rewrite filter_flat_map. simpl.
    rewrite flat_map_single with (k := k); [|exact Hnd|].
    - rewrite Htk. destruct (existsb (opt_str_eqb k) (fid_keys l)) eqn:E.
      + apply filter_all_true. intros w Hw. destruct (HW k w Hw) as [H1 H2].
        unfold targets; rewrite H1, H2; reflexivity.
      + replace (filter (has_fid k) l) with (@nil Move.t); [reflexivity|].
        symmetry; apply filter_all_false.
        intros x Hx. destruct (has_fid k x) eqn:Hk; [|reflexivity]. exfalso.
        assert (In k (fid_keys l)).
        { apply Hin. exists x; split; [exact Hx|]. apply opt_str_eqb_eq; exact Hk. }
        apply existsb_opt_str in H; congruence.
    - intros k' Hk'. apply filter_all_false. intros w Hw.
      destruct (HW k' w Hw) as [_ H2]. unfold targets.
      destruct (has_fid k w) eqn:H3; [|apply andb_false_r].
      exfalso; apply Hk'. unfold has_fid in *.
      apply opt_str_eqb_eq in H2, H3; congruence. }
  split; [|split; [exact Hb|split]].
  - rewrite filter_app, filter_and.
    rewrite filter_all_false with (l := flat_map W (fid_keys l)).
    + rewrite app_nil_r. apply filter_ext; intros x. destruct (passes x); reflexivity.
    + intros w Hw. apply in_flat_map in Hw as [k [_ Hw]].
      destruct (HW k w Hw) as [H1 _]. unfold passes; rewrite H1; reflexivity.
  - intros m Hm. apply in_app_or in Hm as [Hm|Hm].
    + left. apply filter_In in Hm; apply Hm.
    + right. apply in_flat_map in Hm as [k [_ Hw]].
      destruct (HW k m Hw) as [H1 H2]. unfold targets, has_fid in *. rewrite H1; simpl.
      apply opt_str_eqb_eq; reflexivity.
  - intros k w Hw. rewrite Hb in Hw.
    destruct (sort_by_key (filter (targets k) ms)) as [|w' r] eqn:Hs; simpl in Hw; [discriminate|].
    injection Hw as ->. exact (sort_by_key_head_min _ _ _ Hs).
Qed.

Lemma C6_resolve_spec_witness :
  resolve chosen_ex = Ok [move_r2r; move_near] /\
  filter (targets (Some (foundation_key 1 spades))) [move_r2r; move_near] = [move_near] /\
  key_lt move_far move_near = false.
Proof.
  assert (H : resolve chosen_ex = Ok [move_r2r; move_near]) by (vm_compute; reflexivity).
  destruct (C6_resolve_spec _ _ H) as [_ [_ [_ Hmin]]].
  assert (Hf : filter (targets (Some (foundation_key 1 spades))) [move_r2r; move_near] = [move_near])
    by (vm_compute; reflexivity).
  split; [exact H|split; [exact Hf|]].
  assert (Hg : filter (targets (Some (foundation_key 1 spades))) chosen_ex = [move_far; move_near])
    by (vm_compute; reflexivity).
  apply (proj2 (Hmin _ _ Hf)). rewrite Hg; left; reflexivity.
Defined.

(** ** Move selection *)

Lemma strategic_bonus_nonneg fs src dst c fid :
  (0 <= _calculate_strategic_bonus fs src dst c fid)%Q.
Proof.
  unfold _calculate_strategic_bonus.
  destruct c as [c|]; [|apply Qle_refl].
  destruct (_ && _); [|apply Qle_refl].
  destruct (existsb _ _); [apply Qle_refl|].
  assert (H : (0 <= Z.of_nat (rank_index (PlayingCard.rank c) + 1) # 13)%Q)
    by (unfold Qle; simpl; lia).
  lra.
Qed.

(** A move built by [make_move] at a non-negative distance has a positive
    combined score: [w * (1 - 0.3 d) + bonus + d >= w > 0]. *)
Lemma make_move_score gs p src dst c d mt fid rs rd m :
  (0 <= d)%Q -> make_move gs p src dst c d mt fid rs rd = Ok m -> (0 < combined_score m)%Q.
Proof.
  intros Hd H. unfold make_move in H.
  destruct (_ && _); [discriminate|]. destruct (_ && _); [discriminate|].
  destruct (_ && _); [discriminate|]. destruct (_ && _); [discriminate|].
  injection H as <-. unfold combined_score, move_priority; simpl.
  pose proof (strategic_bonus_nonneg (foundations gs) src dst c fid).
  destruct mt; simpl; lra.
Qed.

Lemma py_for_inv {A S} (Inv : S -> Prop) (xs : list A) (body : S -> A -> result S) s s' :
  (forall acc x acc', Inv acc -> body acc x = Ok acc' -> Inv acc') ->
  Inv s -> py_for xs s body = Ok s' -> Inv s'.
Proof.
  intros Hb. revert s. induction xs as [|x t IH]; intros s Hs H; simpl in H.
  - injection H as <-; exact Hs.
  - destruct (body s x) as [a|] eqn:E; simpl in H; [|discriminate].
    exact (IH a (Hb _ _ _ Hs E) H).
Qed.

Lemma pos_scores_snoc l m :
  pos_scores l -> (0 < combined_score m)%Q -> pos_scores (l ++ [m]).
Proof. intros H1 H2. apply Forall_app; split; [exact H1|constructor; [exact H2|constructor]]. Qed.

Lemma pos_scores_append_opt l o :
  pos_scores l -> (forall m, o = Some m -> 0 < combined_score m)%Q ->
  pos_scores (append_opt l o).
Proof.
  intros H1 H2. destruct o as [m|]; simpl; [|exact H1].
  apply pos_scores_snoc; [exact H1|apply H2; reflexivity].
Qed.

Section Scores.

Variable foundation_distance : nat -> string -> Q.
Hypothesis foundation_distance_nonneg : forall p s, (0 <= foundation_distance p s)%Q.

Lemma generate_river_move_score gs p c src m :
  generate_river_move gs p c src = Ok (Some m) -> (0 < combined_score m)%Q.
Proof.
  unfold generate_river_move. destruct (loc_eqb src RiverPile); [discriminate|].
  destruct (py_get _ _) as [pl|]; cbn [rbind]; [|discriminate].
  destruct (river_scan (cards_in_river (PlayerState.deck pl)) c river_range) as [[i|]|];
    cbn [rbind]; try discriminate.
  destruct (make_move _ _ _ _ _ _ _ _ _ _) as [m'|] eqn:E; cbn [rbind]; [|discriminate].
  intros H; injection H as <-.
  refine (make_move_score _ _ _ _ _ _ _ _ _ _ _ _ E). apply Qle_refl.
Qed.

Lemma generate_foundation_move_score gs p c src rs m :
  generate_foundation_move foundation_distance gs p c src rs = Ok (Some m) ->
  (0 < combined_score m)%Q.
Proof.
  unfold generate_foundation_move.
  destruct src; cbn [rbind]; try discriminate;
  (destruct (rank_eqb _ _);
   [ destruct (make_move _ _ _ _ _ _ _ _ _ _) as [m'|] eqn:E; cbn [rbind]; [|discriminate];
     intros H; injection H as <-;
     exact (make_move_score _ _ _ _ _ _ _ _ _ _ _ (foundation_distance_nonneg _ _) E)
   | destruct (foundation_scan _ _) as [[f|]|]; cbn [rbind]; try discriminate;
     destruct (make_move _ _ _ _ _ _ _ _ _ _) as [m'|] eqn:E; cbn [rbind]; [|discriminate];
     intros H; injection H as <-;
     exact (make_move_score _ _ _ _ _ _ _ _ _ _ _ (foundation_distance_nonneg _ _) E) ]).
Qed.

Lemma calculate_legal_moves_scores gs p ms :
  calculate_legal_moves foundation_distance gs p = Ok ms -> pos_scores ms.
Proof.
  unfold calculate_legal_moves.
  destruct (_add_nertz_moves _ gs p []) as [l1|] eqn:E1; cbn [rbind]; [|discriminate].
  assert (H1 : pos_scores l1).
  { unfold _add_nertz_moves in E1.
    destruct (py_get _ _) as [pl|]; cbn [rbind] in E1; [|discriminate].
    destruct (cards_in_nertz _); [injection E1 as <-; constructor|].
    destruct (top_nertz_card _) as [c|]; [|injection E1 as <-; constructor].
    destruct (generate_foundation_move _ _ _ _ _ _) as [[m|]|] eqn:Eg; cbn [rbind] in E1; try discriminate.
    - injection E1 as <-. apply (pos_scores_snoc []); [constructor|].
      exact (generate_foundation_move_score _ _ _ _ _ _ Eg).
    - destruct (generate_river_move _ _ _ _) as [o|] eqn:Er; cbn [rbind] in E1; [|discriminate].
      injection E1 as <-. apply pos_scores_append_opt; [constructor|].
      intros m ->. exact (generate_river_move_score _ _ _ _ _ Er). }
  destruct (_add_river_to_foundation_moves _ gs p l1) as [l2|] eqn:E2; cbn [rbind]; [|discriminate].
  assert (H2 : pos_scores l2).
  { unfold _add_river_to_foundation_moves in E2.
    destruct (py_get _ _) as [pl|]; cbn [rbind] in E2; [|discriminate].
    refine (py_for_inv pos_scores _ _ _ _ _ H1 E2).
    intros acc i acc' Ha Hb.
    destruct (py_get _ _); cbn [rbind] in Hb; [|discriminate].
    destruct (py_last _) as [c|]; [|injection Hb as <-; exact Ha].
    destruct (generate_foundation_move _ _ _ _ _ _) as [o|] eqn:Eg; cbn [rbind] in Hb; [|discriminate].
    injection Hb as <-. apply pos_scores_append_opt; [exact Ha|].
    intros m ->. exact (generate_foundation_move_score _ _ _ _ _ _ Eg). }
  destruct (_add_river_to_river_moves gs p l2) as [l3|] eqn:E3; cbn [rbind]; [|discriminate].
  assert (H3 : pos_scores l3).
  { unfold _add_river_to_river_moves in E3.
    destruct (py_get _ _) as [pl|]; cbn [rbind] in E3; [|discriminate].
    refine (py_for_inv pos_scores _ _ _ _ _ H2 E3).
    intros acc i acc' Ha Hb.
    destruct (py_get _ _) as [[|sc r]|]; cbn [rbind] in Hb; try discriminate;
      [injection Hb as <-; exact Ha|].
    refine (py_for_inv pos_scores _ _ _ _ _ Ha Hb).
    intros acc2 j acc2' Ha2 Hb2.
    destruct (Nat.eqb i j); [injection Hb2 as <-; exact Ha2|].
    destruct (py_get _ _); cbn [rbind] in Hb2; [|discriminate].
    destruct (py_last _); [|injection Hb2 as <-; exact Ha2].
    destruct (_is_valid_solitaire_move _ _); [|injection Hb2 as <-; exact Ha2].
    destruct (make_move _ _ _ _ _ _ _ _ _ _) as [m|] eqn:Em; cbn [rbind] in Hb2; [|discriminate].
    injection Hb2 as <-. apply pos_scores_snoc; [exact Ha2|].
    refine (make_move_score _ _ _ _ _ _ _ _ _ _ _ _ Em). apply Qle_refl. }
  unfold _add_deck_moves.
  destruct (py_get _ _) as [pl|]; cbn [rbind]; [|discriminate].
  destruct (generate_stream_flip_move gs p) as [fm|] eqn:Ef; cbn [rbind]; [|discriminate].
  assert (Hf : pos_scores (l3 ++ [fm])).
  { apply pos_scores_snoc; [exact H3|].
    refine (make_move_score _ _ _ _ _ _ _ _ _ _ _ _ Ef). apply Qle_refl. }
  destruct (top_stream_cards _ _); cbn [rbind]; [|discriminate].
  destruct (py_get _ _) as [c|]; cbn [rbind]; [|discriminate].
  destruct (generate_river_move _ _ _ _) as [[m|]|] eqn:Er; cbn [rbind]; try discriminate.
  - intros H; injection H as <-. apply pos_scores_snoc; [exact Hf|].
    exact (generate_river_move_score _ _ _ _ _ Er).
  - destruct (generate_foundation_move _ _ _ _ _ _) as [o|] eqn:Eg; cbn [rbind]; [|discriminate].
    intros H; injection H as <-. apply pos_scores_append_opt; [exact Hf|].
    intros m ->. exact (generate_foundation_move_score _ _ _ _ _ _ Eg).
Qed.

End Scores.

(** The state of the selection loop after a prefix of moves of combined
    score above [-1]: nothing chosen for an empty prefix, otherwise the
    first move of largest score, with that score. *)
Lemma select_fold pre :
  Forall (fun m => -1 < combined_score m)%Q pre ->
  match fold_left select_step pre ((-1)%Q, None) with
  | (h, None) => pre = [] /\ h = (-1)%Q
  | (h, Some m) => h = combined_score m /\ first_max pre m
  end.
Proof.
  induction pre as [|x pre IH] using rev_ind; intros Hf; [split; reflexivity|].
  apply Forall_app in Hf as [Hf Hx]. inversion Hx as [|? ? Hx' _]; subst.
  specialize (IH Hf). rewrite fold_left_app. simpl.
  destruct (fold_left select_step pre ((-1)%Q, None)) as [h [m|]].
  - destruct IH as [-> [l1 [l2 [-> [H1 H2]]]]]. unfold select_step.
    fold (combined_score x). destruct (Qlt_bool (combined_score m) (combined_score x)) eqn:E.
    + apply Qlt_bool_iff in E. split; [reflexivity|].
      exists (l1 ++ m :: l2), []. split; [reflexivity|split; [|constructor]].
      apply Forall_app; split.
      * eapply Forall_impl; [|exact H1]. intros y Hy; cbv beta in *; lra.
      * constructor; [exact E|]. eapply Forall_impl; [|exact H2]. intros y Hy; cbv beta in *; lra.
    + split; [reflexivity|].
      assert (Hle : (combined_score x <= combined_score m)%Q).
      { destruct (Qlt_le_dec (combined_score m) (combined_score x)) as [Hl|Hl]; [|exact Hl].
        apply Qlt_bool_iff in Hl; congruence. }
      exists l1, (l2 ++ [x]). split; [rewrite <- app_assoc; reflexivity|split; [exact H1|]].
      apply Forall_app; split; [exact H2|constructor; [exact Hle|constructor]].
  - destruct IH as [-> ->]. unfold select_step. fold (combined_score x).
    assert (E : Qlt_bool (-1) (combined_score x) = true) by (apply Qlt_bool_iff; exact Hx').
    rewrite E. split; [reflexivity|]. exists [], []. simpl.
    split; [reflexivity|split; constructor].
Qed.

Lemma select_move_spec ms :
  Forall (fun m => -1 < combined_score m)%Q ms ->
  (select_move ms = None <-> ms = []) /\
  (forall m, select_move ms = Some m -> first_max ms m).
Proof.
  intros Hf. pose proof (select_fold ms Hf) as H. unfold select_move.
  destruct (fold_left select_step ms ((-1)%Q, None)) as [h [m|]]; simpl.
  - destruct H as [_ Hm]. split.
    + split; [discriminate|]. intros E.
      destruct Hm as [l1 [l2 [Hms _]]]. rewrite E in Hms.
      symmetry in Hms; apply app_eq_nil in Hms as [_ Hms]; discriminate.
    + intros m' E; injection E as <-. exact Hm.
  - destruct H as [-> _]. split; [split; reflexivity|discriminate].
Qed.

Lemma choose_loop fd gs ps acc chosen :
  py_for ps acc (fun chosen_moves_list player =>
    calculated_moves <- calculate_legal_moves fd gs (PlayerState.player_index player) ;;
    Ok (append_opt chosen_moves_list (select_move calculated_moves))) = Ok chosen ->
  exists mss,
    Forall2 (fun p ms => calculate_legal_moves fd gs (PlayerState.player_index p) = Ok ms) ps mss /\
    chosen = acc ++ flat_map (fun ms => option_list (select_move ms)) mss.
Proof.
  revert acc. induction ps as [|p t IH]; intros acc H; simpl in H.
  - injection H as <-. exists []. split; [constructor|]. rewrite app_nil_r; reflexivity.
  - destruct (calculate_legal_moves fd gs (PlayerState.player_index p)) as [ms|] eqn:E;
      cbn [rbind] in H; [|discriminate].
    apply IH in H as [mss [Hf ->]]. exists (ms :: mss). split; [constructor; assumption|].
    simpl. rewrite app_assoc. f_equal.
    destruct (select_move ms); simpl; [reflexivity|symmetry; apply app_nil_r].
Qed.

(** C7: when every player-to-foundation distance is non-negative (it is a
    Euclidean distance), a successful [play_turn] selection computes the
    legal moves of each player in the order of [players], and takes from
    each list the first move of largest [priority + distance]; the chosen
    moves are these candidates in player order, and a player contributes
    none exactly when its list of legal moves is empty. *)
Theorem C7_choose_moves_first_max foundation_distance gs chosen :
  (forall p s, 0 <= foundation_distance p s)%Q ->
  choose_moves foundation_distance gs = Ok chosen ->
  exists mss,
    Forall2 (fun p ms => calculate_legal_moves foundation_distance gs
                           (PlayerState.player_index p) = Ok ms) (players gs) mss /\
    chosen = flat_map (fun ms => option_list (select_move ms)) mss /\
    Forall (fun ms => (select_move ms = None <-> ms = []) /\
                      forall m, select_move ms = Some m -> first_max ms m) mss.
Proof.
  intros Hd H. unfold choose_moves in H. apply choose_loop in H as [mss [Hf ->]].
  exists mss. split; [exact Hf|split; [reflexivity|]].
  clear - Hd Hf. induction Hf as [|p ms ps mss Hp Hf IH]; constructor; [|exact IH].
  apply select_move_spec.
  apply calculate_legal_moves_scores in Hp; [|exact Hd].
  eapply Forall_impl; [|exact Hp]. intros m Hm; cbv beta in *; lra.
Qed.

Lemma C7_choose_moves_first_max_witness :
  (forall p s, 0 <= dist_ex p s)%Q /\
  exists mss,
    Forall2 (fun p ms => calculate_legal_moves dist_ex gs_flipped
                           (PlayerState.player_index p) = Ok ms) (players gs_flipped) mss /\
    [move_ace] = flat_map (fun ms => option_list (select_move ms)) mss /\
    Forall (fun ms => (select_move ms = None <-> ms = []) /\
                      forall m, select_move ms = Some m -> first_max ms m) mss.
Proof.
  assert (Hd : (forall p s, 0 <= dist_ex p s)%Q) by (intros p s; unfold dist_ex; lra).
  split; [exact Hd|].
  apply (C7_choose_moves_first_max dist_ex gs_flipped [move_ace] Hd).
  vm_compute; reflexivity.
Defined.

(** ** Card conservation by [MoveExecutor.execute] *)

Local Abbreviation cnt l z := (count_occ card_eq_dec l z).

(** Counting arithmetic: split counts over [++], evaluate singletons. *)
Ltac cnt_lia :=
  cbv beta in *; repeat rewrite count_occ_app in *; cbn [count_occ] in *; lia.

Lemma py_last_removelast {A} (l : list A) x : py_last l = Some x -> l = removelast l ++ [x].
Proof.
  destruct l as [|a l] using rev_ind; [discriminate|].
  rewrite py_last_app. intros H; injection H as <-. rewrite removelast_last; reflexivity.
Qed.

Lemma py_set_count {A} (F : A -> list Card) l i x y l' z :
  py_get l i = Ok x -> py_set l i y = Ok l' ->
  cnt (flat_map F l') z + cnt (F x) z = cnt (flat_map F l) z + cnt (F y) z.
Proof.
  unfold py_get. revert i l'. induction l as [|a t IH]; intros [|i] l' Hg Hs;
    simpl in Hg, Hs; try discriminate.
  - injection Hg as <-; injection Hs as <-. simpl. rewrite !count_occ_app. lia.
  - destruct (nth_error t i) eqn:E; [|discriminate]. injection Hg as ->.
    destruct (py_set t i y) as [r|] eqn:Er; cbn [rbind] in Hs; [|discriminate].
    injection Hs as <-. simpl. rewrite !count_occ_app.
    specialize (IH i r). rewrite E in IH. specialize (IH eq_refl Er). lia.
Qed.

Lemma concat_count (l : list (list Card)) z :
  cnt (List.concat l) z = cnt (flat_map (fun x => x) l) z.
Proof. rewrite flat_map_concat_map, map_id. reflexivity. Qed.

Lemma update_deck_count gs i f gs' (A B : Card -> nat) :
  (forall d d', f d = Ok d' -> forall z, cnt (pile_cards d') z + A z = cnt (pile_cards d) z + B z) ->
  update_deck gs i f = Ok gs' ->
  forall z, cnt (all_cards gs') z + A z = cnt (all_cards gs) z + B z.
Proof.
  intros Hf H z. unfold update_deck in H.
  destruct (py_get (players gs) i) as [p|] eqn:Ep; cbn [rbind] in H; [|discriminate].
  destruct (f (PlayerState.deck p)) as [d|] eqn:Ed; cbn [rbind] in H; [|discriminate].
  unfold set_player in H.
  destruct (py_set (players gs) i (set_deck p d)) as [ps|] eqn:Es; cbn [rbind] in H; [|discriminate].
  injection H as <-. unfold all_cards, foundation_cards; simpl. rewrite !count_occ_app.
  pose proof (py_set_count (fun p => pile_cards (PlayerState.deck p)) _ _ _ _ _ z Ep Es) as Hc.
  simpl in Hc. specialize (Hf _ _ Ed z). lia.
Qed.

Lemma dict_set_some_count (d : dict Foundation.t) k v v' z :
  dict_get d k = Some v ->
  cnt (flat_map Foundation.cards (dict_values (dict_set d k v'))) z + cnt (Foundation.cards v) z =
  cnt (flat_map Foundation.cards (dict_values d)) z + cnt (Foundation.cards v') z.
Proof.
  induction d as [|[k' w] t IH]; simpl; [discriminate|].
  destruct (String.eqb k k').
  - intros H; injection H as ->. simpl. rewrite !count_occ_app. lia.
  - intros H. simpl. rewrite !count_occ_app. specialize (IH H). lia.
Qed.

Lemma dict_set_none_values {V} (d : dict V) k v :
  dict_get d k = None -> dict_values (dict_set d k v) = dict_values d ++ [v].
Proof.
  induction d as [|[k' w] t IH]; simpl; [reflexivity|].
  destruct (String.eqb k k'); [discriminate|]. intros H; simpl; rewrite IH; auto.
Qed.

(** Adding the card to the lake leaves the counted piles as they are. *)
Lemma add_lake_count gs i l gs' z :
  update_deck gs i (fun d => Ok (with_lake d (cards_in_lake d ++ l))) = Ok gs' ->
  cnt (all_cards gs') z = cnt (all_cards gs) z.
Proof.
  intros H.
  assert (Hc : forall z, cnt (all_cards gs') z + 0 = cnt (all_cards gs) z + 0);
    [|specialize (Hc z); lia].
  apply (update_deck_count gs i (fun d => Ok (with_lake d (cards_in_lake d ++ l))) gs'
           (fun _ => 0) (fun _ => 0)); [|exact H].
  intros d d' E z'; injection E as <-. reflexivity.
Qed.

Lemma update_deck_ok gs i f gs' :
  update_deck gs i f = Ok gs' -> exists d d', f d = Ok d'.
Proof.
  unfold update_deck. destruct (py_get _ _) as [p|]; cbn [rbind]; [|discriminate].
  destruct (f (PlayerState.deck p)) as [d|] eqn:E; cbn [rbind]; [|discriminate].
  intros _; eauto.
Qed.

(** Each step of a chain of [rbind]s that ends in [Ok]. *)
Ltac rbind_cases H :=
  repeat match type of H with
  | rbind ?x _ = _ => destruct x; cbn [rbind] in H; [|discriminate H]
  end.

(** [update_deck] counted through any view [P] of the piles: it changes no
    foundation and only the mover's piles. *)
Lemma update_deck_measure (P : DeckManager -> list Card) gs i f gs' (A B : Card -> nat) :
  (forall d d', f d = Ok d' -> forall z, cnt (P d') z + A z = cnt (P d) z + B z) ->
  update_deck gs i f = Ok gs' ->
  foundations gs' = foundations gs /\
  forall z, cnt (flat_map (fun p => P (PlayerState.deck p)) (players gs')) z + A z =
            cnt (flat_map (fun p => P (PlayerState.deck p)) (players gs)) z + B z.
Proof.
  intros Hf H. unfold update_deck in H.
  destruct (py_get (players gs) i) as [p|] eqn:Ep; cbn [rbind] in H; [|discriminate].
  destruct (f (PlayerState.deck p)) as [d|] eqn:Ed; cbn [rbind] in H; [|discriminate].
  unfold set_player in H.
  destruct (py_set (players gs) i (set_deck p d)) as [ps|] eqn:Es; cbn [rbind] in H; [|discriminate].
  injection H as <-. split; [reflexivity|]. intros z. simpl.
  pose proof (py_set_count (fun p => P (PlayerState.deck p)) _ _ _ _ _ z Ep Es) as Hc.
  simpl in Hc. specialize (Hf _ _ Ed z). lia.
Qed.

Lemma update_deck_keeps_lake gs i f gs' :
  (forall d d', f d = Ok d' -> cards_in_lake d' = cards_in_lake d) ->
  update_deck gs i f = Ok gs' ->
  foundations gs' = foundations gs /\ forall z, cnt (lake_cards gs') z = cnt (lake_cards gs) z.
Proof.
  intros Hf H.
  destruct (update_deck_measure cards_in_lake gs i f gs' (fun _ => 0) (fun _ => 0)) as [Hfo Hc];
    [intros d d' E z; rewrite (Hf d d' E); reflexivity | exact H |].
  split; [exact Hfo|]. intros z. specialize (Hc z). cbv beta in Hc. unfold lake_cards. lia.
Qed.

(** Counting the lake splits off the lakes of all players. *)
Lemma flat_map_app_count {A} (F G : A -> list Card) l z :
  cnt (flat_map (fun x => F x ++ G x) l) z = cnt (flat_map F l) z + cnt (flat_map G l) z.
Proof. induction l as [|a l IH]; simpl; [reflexivity|]. rewrite !count_occ_app, IH. lia. Qed.

Lemma with_lake_count gs z :
  cnt (all_cards_with_lake gs) z = cnt (all_cards gs) z + cnt (lake_cards gs) z.
Proof.
  unfold all_cards_with_lake, all_cards, lake_cards, pile_cards_with_lake.
  rewrite !count_occ_app,
    (flat_map_app_count (fun p => pile_cards (PlayerState.deck p))
                        (fun p => cards_in_lake (PlayerState.deck p))).
  lia.
Qed.

(** The source effects leave the foundations and the lakes as they are. *)
Lemma src_keeps_lake wp mis ms gs1 m gs2 :
  apply_source_effects wp mis ms gs1 m = Ok gs2 ->
  foundations gs2 = foundations gs1 /\ forall z, cnt (lake_cards gs2) z = cnt (lake_cards gs1) z.
Proof.
  unfold apply_source_effects. intros H.
  destruct (Move.source_pile m).
  - refine (update_deck_keeps_lake _ _ _ _ _ H). intros d d' E.
    rbind_cases E. injection E as <-. reflexivity.
  - destruct (Move.river_slot_source m) as [i|]; [|discriminate].
    refine (update_deck_keeps_lake _ _ _ _ _ H). intros d d' E.
    rbind_cases E. injection E as <-. reflexivity.
  - refine (update_deck_keeps_lake _ _ _ _ _ H). intros d d' E.
    rbind_cases E. injection E as <-. reflexivity.
  - injection H as <-. split; reflexivity.
Qed.

(** Appending to the mover's lake, or not. *)
Lemma add_lake_effects (lake : bool) g i c gs1 :
  (if lake then update_deck g i (fun d => Ok (with_lake d (cards_in_lake d ++ [c]))) else Ok g)
    = Ok gs1 ->
  foundations gs1 = foundations g /\
  (forall z, cnt (all_cards gs1) z = cnt (all_cards g) z) /\
  (forall z, cnt (lake_cards gs1) z = cnt (lake_cards g) z + cnt (if lake then [c] else []) z).
Proof.
  destruct lake; intros H.
  - destruct (update_deck_measure cards_in_lake g i
                (fun d => Ok (with_lake d (cards_in_lake d ++ [c]))) gs1
                (fun _ => 0) (fun z => cnt [c] z))
      as [Hf Hl]; [|exact H|].
    { intros d d' E z. injection E as <-. cbv beta. cbn [cards_in_lake with_lake].
      rewrite count_occ_app. lia. }
    split; [exact Hf|split].
    + intros z. exact (add_lake_count _ _ _ _ z H).
    + intros z. specialize (Hl z). cbv beta in Hl. unfold lake_cards. lia.
  - injection H as <-. split; [reflexivity|split; intros z; simpl; lia].
Qed.

(** A card put on a river slot. *)
Lemma river_place_counts gs m i gs1 :
  update_deck gs (Move.player_index m) (fun d => river_append d i (Move.card m)) = Ok gs1 ->
  exists c, Move.card m = Some c /\
    (forall z, cnt (all_cards gs1) z = cnt (all_cards gs) z + cnt [c] z) /\
    foundations gs1 = foundations gs /\
    (forall z, cnt (lake_cards gs1) z = cnt (lake_cards gs) z).
Proof.
  intros H. destruct (Move.card m) as [c|] eqn:Ec.
  - exists c. split; [reflexivity|].
    assert (Hk : forall d d', river_append d i (Some c) = Ok d' ->
                              cards_in_lake d' = cards_in_lake d).
    { intros d d' E. unfold river_append in E. rbind_cases E. injection E as <-. reflexivity. }
    destruct (update_deck_keeps_lake _ _ _ _ Hk H) as [Hf Hl].
    split; [|split; assumption]. intros z.
    assert (Hc : forall z, cnt (all_cards gs1) z + 0 = cnt (all_cards gs) z + cnt [c] z);
      [|specialize (Hc z); lia].
    refine (update_deck_count gs _ _ gs1 (fun _ => 0) (fun z => cnt [c] z) _ H).
    intros d d' E z'. unfold river_append in E.
    destruct (py_get (cards_in_river d) i) as [slot|] eqn:Eg; cbn [rbind] in E; [|discriminate].
    destruct (py_set (cards_in_river d) i (slot ++ [c])) as [r|] eqn:Es;
      cbn [rbind] in E; [|discriminate].
    injection E as <-. unfold pile_cards, with_river; simpl.
    rewrite !count_occ_app, !concat_count.
    pose proof (py_set_count (fun x => x) _ _ _ _ _ z' Eg Es) as Hp.
    cbv beta in Hp. rewrite count_occ_app in Hp. simpl in Hp. lia.
  - exfalso. apply update_deck_ok in H as [d [d' E]]. unfold river_append in E.
    destruct (py_get _ _); cbn [rbind] in E; discriminate.
Qed.

(** A card put on a foundation; with [lake] also in the mover's lake. *)
Lemma foundation_place_counts lake mis gs m gs1 :
  fresh_ace_foundation gs m ->
  place_on_foundation lake mis gs m = Ok gs1 ->
  exists c, Move.card m = Some c /\
    (forall z, cnt (all_cards gs1) z = cnt (all_cards gs) z + cnt [c] z) /\
    (forall z, cnt (foundation_cards gs1) z = cnt (foundation_cards gs) z + cnt [c] z) /\
    (forall z, cnt (lake_cards gs1) z = cnt (lake_cards gs) z + cnt (if lake then [c] else []) z).
Proof.
  intros Hfr H. unfold place_on_foundation, move_card in H.
  destruct (Move.card m) as [c|] eqn:Ec; cbn [rbind] in H; [|discriminate].
  exists c; split; [reflexivity|].
  destruct (rank_eqb (PlayingCard.rank c) rank_A) eqn:Ea.
  - destruct (create_foundation gs c (Move.player_index m)) as [g|] eqn:Ecf;
      cbn [rbind] in H; [|discriminate].
    cbv beta iota zeta in H.
    destruct (add_lake_effects lake g _ c gs1 H) as [Hf [Ha Hl]].
    unfold create_foundation, Foundation.create in Ecf. rewrite Ea in Ecf.
    cbn [rbind] in Ecf. injection Ecf as <-.
    apply rank_eqb_eq in Ea.
    split; [|split].
    + intros z. rewrite Ha. unfold all_cards, foundation_cards; simpl.
      rewrite (dict_set_none_values _ _ _ (Hfr c Ec Ea)), flat_map_app, !count_occ_app.
      simpl. lia.
    + intros z. unfold foundation_cards. rewrite Hf. simpl.
      rewrite (dict_set_none_values _ _ _ (Hfr c Ec Ea)), flat_map_app, !count_occ_app.
      simpl. lia.
    + intros z. rewrite Hl. reflexivity.
  - destruct (Move.foundation_identifier m) as [fid|] eqn:Ef; cbv beta iota zeta in H;
      [|discriminate].
    destruct (dict_get (foundations gs) fid) as [f|] eqn:Eg; [|discriminate].
    destruct (add_lake_effects lake _ _ c gs1 H) as [Hf [Ha Hl]].
    assert (Hs : forall z,
      cnt (flat_map Foundation.cards (dict_values (dict_set (foundations gs) fid
             (Foundation.add_card f c)))) z + cnt (Foundation.cards f) z =
      cnt (flat_map Foundation.cards (dict_values (foundations gs))) z +
      (cnt (Foundation.cards f) z + cnt [c] z)).
    { intros z. rewrite (dict_set_some_count _ _ _ (Foundation.add_card f c) z Eg).
      change (Foundation.cards (Foundation.add_card f c)) with (Foundation.cards f ++ [c]).
      rewrite count_occ_app. reflexivity. }
    split; [|split].
    + intros z. rewrite Ha. specialize (Hs z). unfold all_cards, foundation_cards in *.
      cbn [foundations players]. rewrite !count_occ_app. lia.
    + intros z. specialize (Hs z). unfold foundation_cards in *. rewrite Hf.
      cbn [foundations]. lia.
    + intros z. rewrite Hl. reflexivity.
Qed.

(** The destination effects of [NertzEngine.execute_move]. *)
Lemma sim_dest_counts gs m gs1 :
  (loc_eqb (Move.destination_pile m) FoundationPile ||
   loc_eqb (Move.destination_pile m) RiverPile) = true ->
  fresh_ace_foundation gs m ->
  sim_apply_destination_effects gs m = Ok gs1 ->
  exists c, Move.card m = Some c /\
    (forall z, cnt (all_cards gs1) z = cnt (all_cards gs) z + cnt [c] z) /\
    (forall z, cnt (foundation_cards gs1) z = cnt (foundation_cards gs) z +
       cnt (if loc_eqb (Move.destination_pile m) FoundationPile then [c] else []) z) /\
    (forall z, cnt (lake_cards gs1) z = cnt (lake_cards gs) z +
       cnt (if false && loc_eqb (Move.destination_pile m) FoundationPile then [c] else []) z).
Proof.
  intros Hd Hfr H. unfold sim_apply_destination_effects in H.
  destruct (Move.destination_pile m); simpl in Hd; try discriminate; simpl.
  - destruct (Move.river_slot_destination m) as [i|]; [|discriminate].
    destruct (river_place_counts _ _ _ _ H) as [c [Ec [Ha [Hf Hl]]]].
    exists c. split; [exact Ec|split; [exact Ha|split]]; intros z.
    + unfold foundation_cards. rewrite Hf. simpl. lia.
    + rewrite Hl. lia.
  - destruct (foundation_place_counts _ _ _ _ _ Hfr H) as [c [Ec [Ha [Hf Hl]]]].
    exists c. split; [exact Ec|split; [exact Ha|split; [exact Hf|exact Hl]]].
Qed.

(** The destination effects of [MoveExecutor.execute]. *)
Lemma exe_dest_counts gs m gs1 :
  (loc_eqb (Move.destination_pile m) FoundationPile ||
   loc_eqb (Move.destination_pile m) RiverPile) = true ->
  fresh_ace_foundation gs m ->
  exe_apply_destination_effects gs m = Ok gs1 ->
  exists c, Move.card m = Some c /\
    (forall z, cnt (all_cards gs1) z = cnt (all_cards gs) z + cnt [c] z) /\
    (forall z, cnt (foundation_cards gs1) z = cnt (foundation_cards gs) z +
       cnt (if loc_eqb (Move.destination_pile m) FoundationPile then [c] else []) z) /\
    (forall z, cnt (lake_cards gs1) z = cnt (lake_cards gs) z +
       cnt (if true && loc_eqb (Move.destination_pile m) FoundationPile then [c] else []) z).
Proof.
  intros Hd Hfr H. unfold exe_apply_destination_effects in H.
  destruct (Move.destination_pile m); simpl in Hd; try discriminate; simpl.
  - destruct (Move.river_slot_destination m) as [i|]; [|discriminate].
    destruct (river_place_counts _ _ _ _ H) as [c [Ec [Ha [Hf Hl]]]].
    exists c. split; [exact Ec|split; [exact Ha|split]]; intros z.
    + unfold foundation_cards. rewrite Hf. simpl. lia.
    + rewrite Hl. simpl. lia.
  - destruct (foundation_place_counts _ _ _ _ _ Hfr H) as [c [Ec [Ha [Hf Hl]]]].
    exists c. split; [exact Ec|split; [exact Ha|split; [exact Hf|exact Hl]]].
Qed.

(** A verified pop takes the move's card off the top. *)
Lemma pop_top_split pile m err pile' c :
  Move.card m = Some c -> pop_top pile m err = Ok pile' -> pile = pile' ++ [c].
Proof.
  intros Hc. unfold pop_top, top_equals.
  destruct (py_last pile) as [top|] eqn:El; cbn [rbind]; [|discriminate].
  unfold move_card; rewrite Hc; cbn [rbind].
  destruct (PlayingCard.equals top c) eqn:Eq; [|discriminate].
  intros E; injection E as <-. apply card_equals_eq in Eq; subst top.
  apply py_last_removelast; exact El.
Qed.


(** The source effects take the move's card off its pile; a river-to-river
    move does so only when the whole slot goes ([slot.pop(0)]), not when
    the top card is popped (C3). *)
Lemma src_count wp mis ms gs1 m gs2 c :
  loc_eqb (Move.source_pile m) FoundationPile = false ->
  (river_to_river m = false \/ forall b rest, wp (b :: rest) = rest) ->
  Move.card m = Some c ->
  apply_source_effects wp mis ms gs1 m = Ok gs2 ->
  forall z, cnt (all_cards gs1) z = cnt (all_cards gs2) z + cnt [c] z.
Proof.
  intros Hs Hwp Hc H z.
  assert (Hu : forall f, update_deck gs1 (Move.player_index m) f = Ok gs2 ->
                         (forall d d', f d = Ok d' -> forall z,
                             cnt (pile_cards d') z + cnt [c] z = cnt (pile_cards d) z + 0) ->
                         cnt (all_cards gs1) z = cnt (all_cards gs2) z + cnt [c] z).
  { intros f Hf Hd. pose proof (update_deck_count _ _ _ _ (fun z => cnt [c] z) (fun _ => 0) Hd Hf z).
    cbv beta in *. lia. }
  unfold apply_source_effects in H. unfold river_to_river in Hwp.
  destruct (Move.source_pile m); simpl in Hs; try discriminate.
  - (* the nertz pile *)
    apply (Hu _ H). intros d d' E z'.
    destruct (pop_top _ _ _) as [n|] eqn:Ep; cbn [rbind] in E; [|discriminate].
    injection E as <-. apply (pop_top_split _ _ _ _ _ Hc) in Ep.
    unfold pile_cards, with_nertz; simpl. rewrite Ep. cnt_lia.
  - (* a river slot *)
    destruct (Move.river_slot_source m) as [i|]; [|discriminate].
    apply (Hu _ H). intros d d' E z'.
    destruct (py_get (cards_in_river d) i) as [slot|] eqn:Eg; cbn [rbind] in E; [|discriminate].
    set (sl := if loc_eqb (Move.destination_pile m) RiverPile then _ else _) in E.
    destruct sl as [slot'|] eqn:Esl; cbn [rbind] in E; [|discriminate].
    assert (Hsl : cnt slot z' = cnt slot' z' + cnt [c] z').
    { unfold sl in Esl. destruct (loc_eqb (Move.destination_pile m) RiverPile) eqn:Edr.
      - unfold bottom_equals, move_card in Esl. rewrite Hc in Esl.
        destruct slot as [|b rest]; cbn [rbind] in Esl; [discriminate|].
        destruct (PlayingCard.equals b c) eqn:Eq; [|discriminate].
        injection Esl as <-. apply card_equals_eq in Eq; subst b.
        destruct Hwp as [Hr|Hw]; [simpl in Hr; rewrite ?Edr in Hr; discriminate|].
        rewrite Hw. change (c :: rest) with ([c] ++ rest). rewrite count_occ_app. simpl. lia.
      - apply (pop_top_split _ _ _ _ _ Hc) in Esl. rewrite Esl, count_occ_app. reflexivity. }
    destruct (py_set (cards_in_river d) i slot') as [r|] eqn:Es; cbn [rbind] in E; [|discriminate].
    injection E as <-. unfold pile_cards, with_river; simpl.
    rewrite !count_occ_app, !concat_count.
    pose proof (py_set_count (fun x => x) _ _ _ _ _ z' Eg Es) as Hp. cnt_lia.
  - (* the stream *)
    apply (Hu _ H). intros d d' E z'.
    destruct (pop_top _ _ _) as [n|] eqn:Ep; cbn [rbind] in E; [|discriminate].
    injection E as <-. apply (pop_top_split _ _ _ _ _ Hc) in Ep.
    unfold pile_cards, with_stream; simpl. rewrite Ep. cnt_lia.
Qed.

Lemma flip_one_count d z : cnt (pile_cards (flip_one d)) z = cnt (pile_cards d) z.
Proof.
  unfold flip_one. destruct (py_last (cards_in_deck d)) as [c|] eqn:E; [|reflexivity].
  pose proof (py_last_removelast _ _ E) as Hd.
  unfold pile_cards, py_pop; simpl. rewrite !count_occ_app.
  replace (cnt (cards_in_deck d) z) with (cnt (removelast (cards_in_deck d) ++ [c]) z)
    by (rewrite <- Hd; reflexivity).
  rewrite count_occ_app. lia.
Qed.

Lemma flip_count d z : cnt (pile_cards (flip__into_stream d)) z = cnt (pile_cards d) z.
Proof.
  unfold flip__into_stream. rewrite !flip_one_count.
  destruct (cards_in_deck d) eqn:E; [|reflexivity].
  unfold pile_cards; simpl. rewrite E, !count_occ_app. simpl. lia.
Qed.

Lemma filter_perm {A} (f : A -> bool) l l' :
  Permutation l l' -> Permutation (filter f l) (filter f l').
Proof.
  induction 1 as [|x l l' _ IH|x y l|l l' l'' _ IH1 _ IH2]; simpl.
  - constructor.
  - destruct (f x); [apply perm_skip|]; exact IH.
  - destruct (f x), (f y); try constructor; reflexivity.
  - etransitivity; eassumption.
Qed.


Lemma flip_one_lake d : cards_in_lake (flip_one d) = cards_in_lake d.
Proof. unfold flip_one. destruct (py_last (cards_in_deck d)); reflexivity. Qed.

Lemma flip_lake d : cards_in_lake (flip__into_stream d) = cards_in_lake d.
Proof.
  unfold flip__into_stream. rewrite !flip_one_lake.
  destruct (cards_in_deck d); reflexivity.
Qed.

(** A flip, or destination then source effects, as counted by
    [execute_with]; [lake] says whether the destination effects copy a
    card placed on a foundation into the mover's lake. *)
Lemma execute_with_counts (lake : bool) dest src gs m gs' :
  (move_type_eqb (Move.move_type m) DECK_TO_DECK = false ->
   forall gs1, dest gs m = Ok gs1 -> exists c, Move.card m = Some c /\
    (forall z, cnt (all_cards gs1) z = cnt (all_cards gs) z + cnt [c] z) /\
    (forall z, cnt (foundation_cards gs1) z = cnt (foundation_cards gs) z +
       cnt (if loc_eqb (Move.destination_pile m) FoundationPile then [c] else []) z) /\
    (forall z, cnt (lake_cards gs1) z = cnt (lake_cards gs) z +
       cnt (if lake && loc_eqb (Move.destination_pile m) FoundationPile then [c] else []) z)) ->
  (move_type_eqb (Move.move_type m) DECK_TO_DECK = false ->
   forall gs1 c, Move.card m = Some c -> src gs1 m = Ok gs' ->
    foundations gs' = foundations gs1 /\
    (forall z, cnt (all_cards gs1) z = cnt (all_cards gs') z + cnt [c] z) /\
    (forall z, cnt (lake_cards gs') z = cnt (lake_cards gs1) z)) ->
  execute_with dest src m gs = Done tt gs' ->
  (forall z, cnt (all_cards gs') z = cnt (all_cards gs) z) /\
  (forall z, cnt (foundation_cards gs') z =
             cnt (foundation_cards gs) z + cnt (placed_on_foundation m) z) /\
  (forall z, cnt (lake_cards gs') z =
             cnt (lake_cards gs) z + cnt (if lake then placed_on_foundation m else []) z).
Proof.
  intros Hdest Hsrc H. unfold execute_with in H.
  destruct (py_get (players gs) (Move.player_index m)) as [p|] eqn:Ep; [|discriminate].
  unfold placed_on_foundation.
  destruct (move_type_eqb (Move.move_type m) DECK_TO_DECK) eqn:Et.
  - destruct (set_player gs (Move.player_index m)
                (set_deck p (flip__into_stream (PlayerState.deck p)))) as [g|] eqn:Es;
      [|discriminate].
    injection H as <-. unfold set_player in Es.
    destruct (py_set (players gs) _ _) as [ps|] eqn:Es'; cbn [rbind] in Es; [|discriminate].
    injection Es as <-.
    split; [|split]; intros z; unfold all_cards, foundation_cards, lake_cards; simpl.
    + pose proof (py_set_count (fun p => pile_cards (PlayerState.deck p)) _ _ _ _ _ z Ep Es')
        as Hp.
      simpl in Hp. rewrite flip_count in Hp. cnt_lia.
    + lia.
    + pose proof (py_set_count (fun p => cards_in_lake (PlayerState.deck p)) _ _ _ _ _ z Ep Es')
        as Hp.
      simpl in Hp. rewrite flip_lake in Hp. destruct lake; simpl; lia.
  - destruct (dest gs m) as [g1|] eqn:Ed; [|discriminate].
    destruct (src g1 m) as [g2|] eqn:Es; [|discriminate].
    injection H as <-.
    destruct (Hdest eq_refl g1 eq_refl) as [c [Ec [Ha [Hf Hl]]]].
    destruct (Hsrc eq_refl g1 c Ec Es) as [Hf2 [Ha2 Hl2]].
    rewrite Ec. cbn [option_list].
    split; [|split]; intros z.
    + specialize (Ha z); specialize (Ha2 z); lia.
    + unfold foundation_cards at 1. rewrite Hf2. exact (Hf z).
    + rewrite Hl2, Hl. destruct lake; reflexivity.
Qed.

(** C2, as stated, counts all five piles of a player, the lake among
    them.  [MoveExecutor.execute] appends a card played to a foundation
    both to the foundation and to the mover's lake: from the 52 cards of
    [gs_found], playing the Two of spades onto the Ace (the first legal
    move generated) leaves 53, the Two twice.  [NertzEngine.execute_move]
    of the legal river-to-river move [move_r2r] loses the Six of spades
    and doubles the Seven of hearts (C3). *)
Lemma C2_lake_duplicates_foundation_card :
  List.length (owned_cards_with_lake gs_found 0) = 52 /\
  match calculate_legal_moves dist_ex gs_found 0 with
  | Ok (m :: _) => m = move_s2
  | _ => False
  end /\
  match execute move_s2 gs_found with
  | Done _ gs' =>
      List.length (owned_cards_with_lake gs' 0) = 53 /\
      cnt (owned_cards_with_lake gs_found 0) card_s2_p0 = 1 /\
      cnt (owned_cards_with_lake gs' 0) card_s2_p0 = 2
  | Raised _ _ => False
  end /\
  match calculate_legal_moves dist_ex gs_flipped 0, execute_move move_r2r gs_flipped with
  | Ok ms, Done _ gs' =>
      In move_r2r ms /\
      cnt (owned_cards_with_lake gs_flipped 0) card_s6 = 1 /\
      cnt (owned_cards_with_lake gs' 0) card_s6 = 0 /\
      cnt (owned_cards_with_lake gs_flipped 0) card_h7 = 1 /\
      cnt (owned_cards_with_lake gs' 0) card_h7 = 2
  | _, _ => False
  end.
Proof. vm_compute. repeat split; try reflexivity. simpl; tauto. Qed.

(** C2, amended.  Counting a player's deck, stream, river, nertz and lake
    piles and all foundations, a successful [NertzEngine.execute_move] (the
    path of [play_turn]) of a flip or of a move from a nertz, stream or
    river pile to a foundation or a river slot, other than a river-to-river
    move, leaves every player's multiset of cards unchanged, provided an Ace
    starts a foundation whose identifier is not taken yet.  Under the same
    provisos a successful [MoveExecutor.execute] (river-to-river moves
    included) keeps it unchanged only with the lakes left out: the card it
    places on a foundation goes both onto the foundations and into the
    lakes, so counting the lakes that card is counted twice. *)
Theorem C2_executors_conserve_cards gs m q :
  pile_move m = true ->
  fresh_ace_foundation gs m ->
  (forall gs', river_to_river m = false -> execute_move m gs = Done tt gs' ->
     Permutation (owned_cards gs' q) (owned_cards gs q) /\
     Permutation (owned_cards_with_lake gs' q) (owned_cards_with_lake gs q)) /\
  (forall gs', execute m gs = Done tt gs' ->
     Permutation (owned_cards gs' q) (owned_cards gs q) /\
     Permutation (owned_cards_with_lake gs' q)
                 (owned_cards_with_lake gs q ++ filter (owned_by q) (placed_on_foundation m)) /\
     Permutation (foundation_cards gs') (foundation_cards gs ++ placed_on_foundation m) /\
     Permutation (lake_cards gs') (lake_cards gs ++ placed_on_foundation m)).
Proof.
  intros Hpm Hfr.
  assert (Hps : move_type_eqb (Move.move_type m) DECK_TO_DECK = false ->
     loc_eqb (Move.source_pile m) FoundationPile = false /\
     (loc_eqb (Move.destination_pile m) FoundationPile ||
      loc_eqb (Move.destination_pile m) RiverPile) = true).
  { intros Et. unfold pile_move in Hpm. rewrite Et in Hpm. simpl in Hpm.
    apply andb_true_iff in Hpm as [Hs Hd]. apply negb_true_iff in Hs. auto. }
  assert (Hperm : forall gs' (l : list Card),
     (forall z, cnt (all_cards gs') z = cnt (all_cards gs) z) ->
     (forall z, cnt (lake_cards gs') z = cnt (lake_cards gs) z + cnt l z) ->
     Permutation (owned_cards gs' q) (owned_cards gs q) /\
     Permutation (owned_cards_with_lake gs' q)
                 (owned_cards_with_lake gs q ++ filter (owned_by q) l)).
  { intros gs' l Ha Hl. split.
    - unfold owned_cards. apply filter_perm, (Permutation_count_occ card_eq_dec). exact Ha.
    - unfold owned_cards_with_lake. rewrite <- filter_app.
      apply filter_perm, (Permutation_count_occ card_eq_dec).
      intros z. rewrite count_occ_app, !with_lake_count, Ha, Hl. lia. }
  split.
  - intros gs' Hr H.
    destruct (execute_with_counts false sim_apply_destination_effects sim_apply_source_effects
                gs m gs') as [Ha [_ Hl]]; [| |exact H|].
    + intros Et gs1 Ed. exact (sim_dest_counts gs m gs1 (proj2 (Hps Et)) Hfr Ed).
    + intros Et gs1 c Ec Es. unfold sim_apply_source_effects in Es.
      destruct (src_keeps_lake _ _ _ _ _ _ Es) as [Hf Hl].
      split; [exact Hf|split; [|exact Hl]].
      exact (src_count _ _ _ _ _ _ c (proj1 (Hps Et)) (or_introl Hr) Ec Es).
    + destruct (Hperm gs' [] Ha) as [P1 P2]; [intros z; rewrite Hl; reflexivity|].
      split; [exact P1|]. simpl in P2. rewrite app_nil_r in P2. exact P2.
  - intros gs' H.
    destruct (execute_with_counts true exe_apply_destination_effects exe_apply_source_effects
                gs m gs') as [Ha [Hf Hl]]; [| |exact H|].
    + intros Et gs1 Ed. exact (exe_dest_counts gs m gs1 (proj2 (Hps Et)) Hfr Ed).
    + intros Et gs1 c Ec Es. unfold exe_apply_source_effects in Es.
      destruct (src_keeps_lake _ _ _ _ _ _ Es) as [Hf Hl].
      split; [exact Hf|split; [|exact Hl]].
      exact (src_count _ _ _ _ _ _ c (proj1 (Hps Et)) (or_intror (fun b rest => eq_refl)) Ec Es).
    + destruct (Hperm gs' (placed_on_foundation m) Ha Hl) as [P1 P2].
      split; [exact P1|split; [exact P2|split]];
        apply (Permutation_count_occ card_eq_dec); intros z; rewrite count_occ_app;
        [exact (Hf z)|exact (Hl z)].
Qed.

Lemma C2_executors_conserve_cards_witness :
  pile_move move_ace = true /\ fresh_ace_foundation gs_full move_ace /\
  river_to_river move_ace = false /\
  (exists gs', execute_move move_ace gs_full = Done tt gs' /\
     Permutation (owned_cards_with_lake gs' 0) (owned_cards_with_lake gs_full 0)) /\
  (exists gs', execute move_ace gs_full = Done tt gs' /\
     Permutation (owned_cards_with_lake gs' 0) (owned_cards_with_lake gs_full 0 ++ [card_sA]) /\
     Permutation (lake_cards gs') (lake_cards gs_full ++ [card_sA])).
Proof.
  assert (Hpm : pile_move move_ace = true) by reflexivity.
  assert (Hfr : fresh_ace_foundation gs_full move_ace)
    by (intros c _ _; reflexivity).
  assert (Hr : river_to_river move_ace = false) by reflexivity.
  destruct (C2_executors_conserve_cards gs_full move_ace 0 Hpm Hfr) as [Hs He].
  split; [exact Hpm|split; [exact Hfr|split; [exact Hr|split]]].
  - destruct (execute_move move_ace gs_full) as [[] g|e g] eqn:E.
    + exists g. split; [reflexivity|]. exact (proj2 (Hs g Hr eq_refl)).
    + exfalso. vm_compute in E. discriminate.
  - destruct (execute move_ace gs_full) as [[] g|e g] eqn:E.
    + exists g. split; [reflexivity|].
      destruct (He g eq_refl) as [_ [P2 [_ P4]]]. split; [exact P2|exact P4].
    + exfalso. vm_compute in E. discriminate.
Defined.

(* ------------------------------------------------------------------ *)
(** ** Setting up a game, scoring, flips and execution errors *)

Lemma generate_new_deck_deck p d :
  generate_new_deck p d = with_deck d (cards_in_deck d ++ full_deck p).
Proof.
  destruct d as [k s r n l]. unfold generate_new_deck, full_deck, with_deck. cbn.
  repeat rewrite <- app_assoc. reflexivity.
Qed.

(** X1: [DeckManager.generate_new_deck] on a new deck manager fills the deck
    with 52 distinct cards, exactly the cards owned by the given player. *)
Theorem generate_new_deck_full_deck p :
  let k := cards_in_deck (generate_new_deck p new_deck_manager) in
  List.length k = 52 /\ NoDup k /\ (forall c, In c k <-> PlayingCard.player_index c = p).
Proof.
  cbv zeta. rewrite generate_new_deck_deck. cbn [with_deck cards_in_deck new_deck_manager app].
  split; [reflexivity|split].
  - unfold full_deck; cbn.
    repeat (constructor; [cbn; intuition discriminate|]). constructor.
  - intros c. split.
    + unfold full_deck. intros Hc. apply in_flat_map in Hc as [s [_ Hs]].
      apply in_map_iff in Hs as [r [<- _]]. reflexivity.
    + destruct c as [s r q]; cbn [PlayingCard.player_index]; intros ->.
      unfold full_deck; apply in_flat_map. exists s.
      split; [destruct s; cbn; tauto|]. apply (in_map (fun r => PlayingCard.mk s r p)). destruct r; cbn; tauto.
Qed.

Lemma deal_starting_hand_eq p shuffle :
  List.length (shuffle (full_deck p)) = 52 ->
  deal_starting_hand p shuffle = Ok (dealt_deck (shuffle (full_deck p))).
Proof.
  intros H.
  assert (E : cards_in_deck (generate_new_deck p new_deck_manager) = full_deck p)
    by (rewrite generate_new_deck_deck; reflexivity).
  unfold deal_starting_hand, shuffle_deck. rewrite E.
  revert H. generalize (shuffle (full_deck p)) as l. intros l H.
  do 52 (destruct l as [|? l]; [discriminate H|]). destruct l; [|discriminate H].
  reflexivity.
Qed.

(** X2: when the shuffle keeps 52 cards, [deal_starting_hand] deals in a fixed
    order from the top of the shuffled deck: 4 river cards, then 13 nertz
    cards, then a first flip of 3 stream cards, leaving the first 32 cards
    of the shuffle as the deck. *)
Theorem deal_starting_hand_order p shuffle :
  List.length (shuffle (full_deck p)) = 52 ->
  deal_starting_hand p shuffle = Ok (dealt_deck (shuffle (full_deck p))).
Proof. intros H. exact (deal_starting_hand_eq p shuffle H). Qed.

Lemma concat_map_singleton {A} (l : list A) : List.concat (map (fun c => [c]) l) = l.
Proof. induction l as [|a l IH]; simpl; [reflexivity|now rewrite IH]. Qed.

Lemma dealt_deck_perm l : Permutation (pile_cards (dealt_deck l)) l.
Proof.
  assert (Hl : l = firstn 32 l ++ firstn 3 (skipn 32 l) ++ firstn 13 (skipn 35 l) ++ skipn 48 l).
  { rewrite <- (firstn_skipn 32 l) at 1. f_equal.
    rewrite <- (firstn_skipn 3 (skipn 32 l)) at 1. f_equal. rewrite skipn_skipn.
    rewrite <- (firstn_skipn 13 (skipn (3 + 32) l)) at 1. f_equal. rewrite skipn_skipn.
    reflexivity. }
  unfold pile_cards, dealt_deck; cbn [cards_in_deck cards_in_stream cards_in_river cards_in_nertz].
  rewrite concat_map_singleton.
  rewrite Hl at 5.
  apply Permutation_app_head. apply Permutation_app; [apply Permutation_sym, Permutation_rev|].
  rewrite Permutation_app_comm.
  apply Permutation_app; apply Permutation_sym, Permutation_rev.
Qed.

Lemma dealt_deck_sizes l :
  List.length l = 52 ->
  List.length (cards_in_deck (dealt_deck l)) = 32 /\
  List.length (cards_in_stream (dealt_deck l)) = 3 /\
  map (@List.length Card) (cards_in_river (dealt_deck l)) = [1; 1; 1; 1] /\
  List.length (cards_in_nertz (dealt_deck l)) = 13 /\
  cards_in_lake (dealt_deck l) = [].
Proof.
  intros H. do 52 (destruct l as [|? l]; [discriminate H|]). destruct l; [|discriminate H].
  repeat split.
Qed.

(** X3: when the shuffle only reorders the cards, [deal_starting_hand] leaves
    32 cards in the deck, 3 in the stream, one in each of the 4 river slots,
    13 in the nertz pile and none in the lake, and these piles hold exactly
    the player's 52 cards. *)
Theorem deal_starting_hand_piles p shuffle :
  Permutation (shuffle (full_deck p)) (full_deck p) ->
  exists d, deal_starting_hand p shuffle = Ok d /\
    List.length (cards_in_deck d) = 32 /\ List.length (cards_in_stream d) = 3 /\
    map (@List.length Card) (cards_in_river d) = [1; 1; 1; 1] /\
    List.length (cards_in_nertz d) = 13 /\ cards_in_lake d = [] /\
    Permutation (pile_cards d) (full_deck p).
Proof.
  intros Hp. assert (Hn : List.length (shuffle (full_deck p)) = 52)
    by (rewrite (Permutation_length Hp); reflexivity).
  exists (dealt_deck (shuffle (full_deck p))).
  split; [exact (deal_starting_hand_eq p shuffle Hn)|].
  destruct (dealt_deck_sizes _ Hn) as [H1 [H2 [H3 [H4 H5]]]].
  repeat (split; [assumption|]).
  etransitivity; [apply dealt_deck_perm|exact Hp].
Qed.

Lemma full_deck_owner p c : In c (full_deck p) -> PlayingCard.player_index c = p.
Proof.
  unfold full_deck. intros Hc. apply in_flat_map in Hc as [s [_ Hs]].
  apply in_map_iff in Hs as [r [<- _]]. reflexivity.
Qed.

Lemma py_for_snoc_map {A B} (g : A -> result B) (f : A -> B) xs acc :
  (forall x, In x xs -> g x = Ok (f x)) ->
  py_for xs acc (fun ps x => y <- g x ;; Ok (ps ++ [y])) = Ok (acc ++ map f xs).
Proof.
  revert acc. induction xs as [|x t IH]; intros acc H; simpl.
  - rewrite app_nil_r; reflexivity.
  - rewrite (H x (or_introl eq_refl)). cbn [rbind].
    rewrite IH; [now rewrite <- app_assoc|]. intros y Hy; apply H; right; exact Hy.
Qed.

(** The players of a new game, for shuffles that keep the 52 cards. *)
Lemma new_game_state_players n sh :
  0 < n ->
  (forall i, i < n -> List.length (sh i (full_deck i)) = 52) ->
  new_game_state n sh =
  Ok (mkGame n (map (fun i => PlayerState.mk i 0%Z (dealt_deck (sh i (full_deck i)))) (seq 0 n)) []).
Proof.
  intros Hn H. unfold new_game_state.
  rewrite (py_for_snoc_map (fun i => new_player_state i (sh i))
             (fun i => PlayerState.mk i 0%Z (dealt_deck (sh i (full_deck i))))).
  - cbn [rbind app]. unfold table_init.
    destruct n as [|n]; [lia|]. reflexivity.
  - intros i Hi. apply in_seq in Hi. unfold new_player_state.
    rewrite deal_starting_hand_eq; [reflexivity|]. apply H; lia.
Qed.

Lemma perm_flat_map {A B} (f g : A -> list B) l :
  (forall x, In x l -> Permutation (f x) (g x)) ->
  Permutation (flat_map f l) (flat_map g l).
Proof.
  induction l as [|x t IH]; intros H; simpl; [constructor|].
  apply Permutation_app; [apply H; left; reflexivity|].
  apply IH; intros y Hy; apply H; right; exact Hy.
Qed.

Lemma filter_full_deck q i :
  filter (owned_by q) (full_deck i) = if Nat.eqb i q then full_deck i else [].
Proof.
  destruct (Nat.eqb i q) eqn:E.
  - apply filter_all_true. intros c Hc. unfold owned_by. rewrite (full_deck_owner _ _ Hc). exact E.
  - apply filter_all_false. intros c Hc. unfold owned_by. rewrite (full_deck_owner _ _ Hc). exact E.
Qed.

Lemma flat_map_seq_single (F : nat -> list Card) q n :
  flat_map (fun i => if Nat.eqb i q then F i else []) (seq 0 n) = if q <? n then F q else [].
Proof.
  induction n as [|n IH]; [reflexivity|].
  rewrite seq_S, flat_map_app, IH. simpl. rewrite app_nil_r.
  destruct (Nat.eqb n q) eqn:E.
  - apply Nat.eqb_eq in E; subst n.
    replace (q <? q) with false by (symmetry; apply Nat.ltb_ge; lia).
    replace (q <? S q) with true by (symmetry; apply Nat.ltb_lt; lia). reflexivity.
  - apply Nat.eqb_neq in E.
    destruct (q <? n) eqn:E1; [apply Nat.ltb_lt in E1|apply Nat.ltb_ge in E1].
    + replace (q <? S n) with true by (symmetry; apply Nat.ltb_lt; lia). apply app_nil_r.
    + replace (q <? S n) with false by (symmetry; apply Nat.ltb_ge; lia). reflexivity.
Qed.

(** X4: a new game of [n >= 1] players, with shuffles that only reorder
    the cards, has no foundations, players indexed 0 to n-1 with score 0,
    and each player [q < n] owns exactly its own 52 cards (no cards for
    [q >= n]). *)
Theorem new_game_state_owned_cards n sh :
  0 < n ->
  (forall i, i < n -> Permutation (sh i (full_deck i)) (full_deck i)) ->
  exists gs, new_game_state n sh = Ok gs /\
    player_count gs = n /\ foundations gs = [] /\
    map PlayerState.player_index (players gs) = seq 0 n /\
    Forall (fun pl => PlayerState.score pl = 0%Z) (players gs) /\
    forall q, Permutation (owned_cards gs q) (if q <? n then full_deck q else []).
Proof.
  intros H0 Hp.
  assert (Hn : forall i, i < n -> List.length (sh i (full_deck i)) = 52)
    by (intros i Hi; rewrite (Permutation_length (Hp i Hi)); reflexivity).
  eexists. split; [exact (new_game_state_players n sh H0 Hn)|].
  cbn [player_count foundations players]. split; [reflexivity|split; [reflexivity|split]].
  { rewrite map_map. cbn [PlayerState.player_index]. apply map_id. }
  split.
  { apply Forall_forall. intros pl Hpl. apply in_map_iff in Hpl as [i [<- _]]. reflexivity. }
  intros q. unfold owned_cards, all_cards. cbn [players foundations].
  unfold foundation_cards, dict_values. cbn [map flat_map]. rewrite app_nil_r.
  rewrite flat_map_concat_map, map_map, <- flat_map_concat_map. cbn [PlayerState.deck].
  rewrite <- (flat_map_seq_single full_deck q n).
  etransitivity.
  { apply filter_perm. apply (perm_flat_map _ full_deck). intros i Hi. apply in_seq in Hi.
    etransitivity; [apply dealt_deck_perm|apply Hp; lia]. }
  rewrite filter_flat_map, (flat_map_ext _ _ (fun i => filter_full_deck q i)). reflexivity.
Qed.

(** X5: a new game (of at least one player) is not over: no player starts
    with an empty nertz pile. *)
Theorem new_game_state_not_over n sh :
  0 < n ->
  (forall i, i < n -> List.length (sh i (full_deck i)) = 52) ->
  exists gs, new_game_state n sh = Ok gs /\ is_game_over gs = false.
Proof.
  intros H0 Hn. eexists. split; [exact (new_game_state_players n sh H0 Hn)|].
  unfold is_game_over; cbn [players]. apply Bool.not_true_iff_false. intros Hx.
  apply existsb_exists in Hx as [pl [Hpl Hz]]. apply in_map_iff in Hpl as [i [<- Hi]].
  apply in_seq in Hi. cbn [PlayerState.deck] in Hz.
  destruct (dealt_deck_sizes _ (Hn i ltac:(lia))) as [_ [_ [_ [H13 _]]]].
  rewrite H13 in Hz. discriminate.
Qed.

(** X6: scoring a new game (of at least one player) before any move gives
    every player -26 (13 nertz cards at -2 each, no lake card). *)
Theorem new_game_state_scores n sh :
  0 < n ->
  (forall i, i < n -> List.length (sh i (full_deck i)) = 52) ->
  exists gs, new_game_state n sh = Ok gs /\
    map PlayerState.score (players (process_game_scores gs)) = repeat (-26)%Z n.
Proof.
  intros H0 Hn. eexists. split; [exact (new_game_state_players n sh H0 Hn)|].
  unfold process_game_scores; cbn [players]. rewrite !map_map.
  rewrite (map_ext_in _ (fun _ => (-26)%Z)).
  - rewrite map_const, length_seq. reflexivity.
  - intros i Hi. apply in_seq in Hi. unfold score_player; cbn [PlayerState.score PlayerState.deck].
    destruct (dealt_deck_sizes _ (Hn i ltac:(lia))) as [_ [_ [_ [H13 Hl]]]].
    rewrite H13, Hl. reflexivity.
Qed.

(** X7: [process_game_scores] adds to each score, and does not replace it:
    calling it k times adds k times (lake cards - 2 * nertz cards) and
    leaves the piles, foundations and player count unchanged. *)
Theorem process_game_scores_iter k gs :
  Nat.iter k process_game_scores gs =
  mkGame (player_count gs)
    (map (fun pl =>
       let d := PlayerState.deck pl in
       PlayerState.mk (PlayerState.player_index pl)
         (PlayerState.score pl + Z.of_nat k *
            (Z.of_nat (List.length (cards_in_lake d)) - 2 * Z.of_nat (List.length (cards_in_nertz d))))%Z
         d) (players gs))
    (foundations gs).
Proof.
  induction k as [|k IH]; simpl Nat.iter.
  - destruct gs as [c ps fs]; cbn. f_equal. rewrite <- (map_id ps) at 1. apply map_ext.
    intros [i s d]; cbn. f_equal. lia.
  - rewrite IH. unfold process_game_scores; cbn [player_count players foundations].
    f_equal. rewrite map_map. apply map_ext. intros [i s d]; unfold score_player; cbn [PlayerState.score PlayerState.player_index PlayerState.deck]. f_equal. rewrite Nat2Z.inj_succ. ring.
Qed.

Lemma flip_one_snoc l x s r n k :
  flip_one (mkDeck (l ++ [x]) s r n k) = mkDeck l (s ++ [x]) r n k.
Proof.
  unfold flip_one; cbn [cards_in_deck cards_in_stream cards_in_river cards_in_nertz cards_in_lake].
  rewrite py_last_app. unfold py_pop. rewrite removelast_last. reflexivity.
Qed.

Lemma flip_three src s r n k :
  flip_one (flip_one (flip_one (mkDeck src s r n k))) =
  mkDeck (firstn (List.length src - 3) src) (s ++ rev (skipn (List.length src - 3) src)) r n k.
Proof.
  destruct src as [|c l] using rev_ind; [cbn; rewrite app_nil_r; reflexivity|].
  destruct l as [|b l] using rev_ind; [reflexivity|].
  destruct l as [|a l] using rev_ind; [cbn; rewrite <- app_assoc; reflexivity|].
  rewrite !flip_one_snoc.
  replace (((l ++ [a]) ++ [b]) ++ [c]) with (l ++ [a; b; c]) by (rewrite <- !app_assoc; reflexivity).
  replace (List.length (l ++ [a; b; c]) - 3) with (List.length l) by (rewrite length_app; cbn; lia).
  rewrite firstn_app, skipn_app, firstn_all, skipn_all, Nat.sub_diag. cbn.
  rewrite app_nil_r, <- !app_assoc. reflexivity.
Qed.

Lemma flip__into_stream_eq d :
  let src := match cards_in_deck d with [] => cards_in_stream d | _ => cards_in_deck d end in
  let stream := match cards_in_deck d with [] => [] | _ => cards_in_stream d end in
  let kept := List.length src - 3 in
  flip__into_stream d =
  mkDeck (firstn kept src) (stream ++ rev (skipn kept src))
         (cards_in_river d) (cards_in_nertz d) (cards_in_lake d).
Proof.
  destruct d as [dk ds dr dn dl]. unfold flip__into_stream; cbn [cards_in_deck cards_in_stream].
  destruct dk as [|c dk]; apply flip_three.
Qed.

(** X8: [flip__into_stream] recycles the stream into the deck when the deck
    is empty, then moves the last (up to) 3 cards of the deck, in reverse
    order, onto the end of the stream. *)
Theorem flip__into_stream_shape d :
  let src := match cards_in_deck d with [] => cards_in_stream d | _ => cards_in_deck d end in
  let stream := match cards_in_deck d with [] => [] | _ => cards_in_stream d end in
  let kept := List.length src - 3 in
  flip__into_stream d =
  mkDeck (firstn kept src) (stream ++ rev (skipn kept src))
         (cards_in_river d) (cards_in_nertz d) (cards_in_lake d).
Proof. exact (flip__into_stream_eq d). Qed.

(** X9: [flip__into_stream] only moves cards between the deck and the
    stream: the player's pile cards are a permutation of the ones before,
    and the river, nertz pile and lake are unchanged. *)
Theorem flip__into_stream_conserves d :
  Permutation (pile_cards (flip__into_stream d)) (pile_cards d) /\
  cards_in_river (flip__into_stream d) = cards_in_river d /\
  cards_in_nertz (flip__into_stream d) = cards_in_nertz d /\
  cards_in_lake (flip__into_stream d) = cards_in_lake d.
Proof.
  split; [apply (Permutation_count_occ card_eq_dec); intros z; apply flip_count|].
  rewrite flip__into_stream_eq. repeat split.
Qed.

(** X10: after [flip__into_stream] the stream is empty exactly when the
    deck and the stream were both empty before. *)
Theorem flip__into_stream_stream_empty d :
  cards_in_stream (flip__into_stream d) = [] <-> cards_in_deck d = [] /\ cards_in_stream d = [].
Proof.
  rewrite flip__into_stream_eq. cbn [cards_in_stream].
  destruct (cards_in_deck d) as [|c k] eqn:E.
  - cbn [app]. split; [|intros [_ ->]; reflexivity].
    intros H. split; [reflexivity|]. apply (f_equal (@rev Card)) in H. rewrite rev_involutive in H.
    cbn in H. rewrite <- (firstn_skipn (List.length (cards_in_stream d) - 3) (cards_in_stream d)).
    rewrite H, app_nil_r.
    destruct (cards_in_stream d) as [|x t] eqn:Es; [reflexivity|]. exfalso.
    assert (Hl : List.length (skipn (List.length (x :: t) - 3) (x :: t)) > 0)
      by (rewrite length_skipn; cbn [List.length]; lia).
    rewrite H in Hl. cbn in Hl. lia.
  - split; [|intros [Hk _]; discriminate]. intros H. exfalso.
    assert (Hl : List.length (skipn (List.length (c :: k) - 3) (c :: k)) > 0)
      by (rewrite length_skipn; cbn [List.length]; lia).
    apply (f_equal (@List.length Card)) in H. rewrite length_app, length_rev in H. change (List.length (@nil Card)) with 0 in H. lia.
Qed.

(** X11: [MoveGenerator._is_valid_solitaire_move] (with [RED_SUITS]) and the
    simulator's [_is_valid_solitaire_move] (with [is_red]/[is_black]) agree
    on every pair of cards. *)
Theorem mg_is_valid_solitaire_move_agrees source_card dest_card :
  mg_is_valid_solitaire_move source_card dest_card = _is_valid_solitaire_move source_card dest_card.
Proof.
  destruct source_card as [s1 r1 p1], dest_card as [s2 r2 p2].
  destruct s1, s2; reflexivity.
Qed.

Lemma next_rank_index r1 r2 :
  rank_opt_eqb (_next_rank r1) r2 = true <-> rank_index r2 = S (rank_index r1).
Proof. destruct r1, r2; vm_compute; split; intros H; (reflexivity || discriminate || lia). Qed.

(** X12: a solitaire move is valid exactly when the two cards have
    different colours and the destination's rank is one above the
    source's; a King therefore never moves onto anything. *)
Theorem solitaire_move_rule source_card dest_card :
  _is_valid_solitaire_move source_card dest_card = true <->
  is_red (PlayingCard.suit source_card) <> is_red (PlayingCard.suit dest_card) /\
  rank_index (PlayingCard.rank dest_card) = S (rank_index (PlayingCard.rank source_card)).
Proof.
  destruct source_card as [s1 r1 p1], dest_card as [s2 r2 p2].
  unfold _is_valid_solitaire_move; cbn [PlayingCard.suit PlayingCard.rank].
  destruct s1, s2; cbn [is_red is_black existsb suit_eqb orb andb];
    rewrite ?next_rank_index; intuition congruence.
Qed.

Lemma foundation_fold_cards cs f :
  Foundation.cards (fold_left Foundation.add_card cs f) = Foundation.cards f ++ cs.
Proof.
  revert f. induction cs as [|x cs IH]; intros f; cbn; [now rewrite app_nil_r|].
  rewrite IH. cbn. now rewrite <- app_assoc.
Qed.

Lemma py_last_cons_last {A} (c : A) cs : py_last (c :: cs) = Some (last cs c).
Proof.
  destruct cs as [|x cs] using rev_ind; [reflexivity|].
  rewrite app_comm_cons, py_last_app, last_last. reflexivity.
Qed.

(** X13: [Foundation] accepts only an Ace as its first card (otherwise a
    [ValueError]); its identifier is [foundation_<player>_<suit>], and after
    any sequence of [add_card] its cards are the Ace followed by the added
    cards, with [top] the last one added. *)
Theorem foundation_create_add_top c p cs :
  match Foundation.create c p with
  | Ok f =>
      PlayingCard.rank c = rank_A /\
      Foundation.identifier f = foundation_key p (PlayingCard.suit c) /\
      Foundation.cards (fold_left Foundation.add_card cs f) = c :: cs /\
      Foundation.top (fold_left Foundation.add_card cs f) = Ok (last cs c)
  | Err e => PlayingCard.rank c <> rank_A /\ e = ValueError "Initial card must be an ace."
  end.
Proof.
  unfold Foundation.create. destruct (rank_eqb (PlayingCard.rank c) rank_A) eqn:E.
  - apply rank_eqb_eq in E. split; [exact E|split; [reflexivity|]].
    rewrite foundation_fold_cards. split; [reflexivity|].
    unfold Foundation.top. rewrite foundation_fold_cards. cbn [Foundation.cards app].
    rewrite py_last_cons_last. reflexivity.
  - split; [|reflexivity]. intros H. rewrite H in E. discriminate.
Qed.

Lemma py_set_nth {A} (l : list A) i x y :
  nth_error l i = Some y ->
  exists l', py_set l i x = Ok l' /\ nth_error l' i = Some x /\
             (forall k, k <> i -> nth_error l' k = nth_error l k).
Proof.
  revert i. induction l as [|a t IH]; intros [|i] H; cbn in H; try discriminate.
  - exists (x :: t). split; [reflexivity|split; [reflexivity|]].
    intros [|k] Hk; [congruence|reflexivity].
  - destruct (IH i H) as [t' [E [H1 H2]]]. exists (a :: t').
    cbn. rewrite E. split; [reflexivity|split; [exact H1|]].
    intros [|k] Hk; [reflexivity|]. cbn. apply H2. lia.
Qed.

(** X14: a nertz-to-river move whose card is not the top nertz card is
    rejected by both executors only after the card has been appended to the
    destination river slot; the resulting state keeps that copy while the
    nertz pile is unchanged. *)
Theorem execute_nertz_mismatch_no_rollback gs m pl slot c j :
  Move.move_type m <> DECK_TO_DECK ->
  Move.source_pile m = NertzPile -> Move.destination_pile m = RiverPile ->
  Move.card m = Some c -> Move.river_slot_destination m = Some j ->
  nth_error (players gs) (Move.player_index m) = Some pl ->
  nth_error (cards_in_river (PlayerState.deck pl)) j = Some slot ->
  top_nertz_card (PlayerState.deck pl) <> Some c ->
  exists gs1 pl1,
    execute m gs = Raised (CardMismatchError "NertzPile") gs1 /\
    execute_move m gs = Raised (ValueError "Top Nertz card does not match the move card.") gs1 /\
    nth_error (players gs1) (Move.player_index m) = Some pl1 /\
    nth_error (cards_in_river (PlayerState.deck pl1)) j = Some (slot ++ [c]) /\
    cards_in_nertz (PlayerState.deck pl1) = cards_in_nertz (PlayerState.deck pl).
Proof.
  intros Ht Hs Hd Hc Hj Hpl Hslot Htop.
  set (i := Move.player_index m) in *.
  destruct (py_set_nth _ j (slot ++ [c]) _ Hslot) as [r [Er [Hr _]]].
  set (pl1 := set_deck pl (with_river (PlayerState.deck pl) r)).
  destruct (py_set_nth _ i pl1 _ Hpl) as [ps [Eps [Hps _]]].
  set (gs1 := mkGame (player_count gs) ps (foundations gs)).
  assert (Hup : update_deck gs i (fun d => river_append d j (Move.card m)) = Ok gs1).
  { unfold update_deck, py_get. rewrite Hpl. cbn [rbind].
    unfold river_append, py_get. rewrite Hslot, Hc. cbn [rbind]. rewrite Er. cbn [rbind].
    unfold set_player. fold pl1. rewrite Eps. reflexivity. }
  assert (Hsrc : forall wp mis ms, apply_source_effects wp mis ms gs1 m = Err (mis nertz_top)).
  { intros wp mis ms. unfold apply_source_effects. rewrite Hs. unfold update_deck, py_get.
    cbn [players gs1]. fold i. rewrite Hps. cbn [rbind]. unfold pop_top, top_equals.
    cbn [pl1 set_deck PlayerState.deck with_river cards_in_nertz].
    destruct (py_last (cards_in_nertz (PlayerState.deck pl))) as [t|] eqn:E; [|reflexivity].
    unfold move_card. rewrite Hc. cbn [rbind].
    destruct (PlayingCard.equals t c) eqn:Eq; [|reflexivity].
    apply card_equals_eq in Eq. subst t. exfalso. apply Htop. exact E. }
  assert (Hmt : move_type_eqb (Move.move_type m) DECK_TO_DECK = false)
    by (destruct (Move.move_type m); try reflexivity; contradiction).
  assert (Hg : py_get (players gs) i = Ok pl) by (unfold py_get; rewrite Hpl; reflexivity).
  exists gs1, pl1. split; [|split; [|split; [exact Hps|split]]].
  - unfold execute, execute_with. fold i. rewrite Hg, Hmt.
    unfold exe_apply_destination_effects. rewrite Hd, Hj. fold i. rewrite Hup.
    unfold exe_apply_source_effects. rewrite Hsrc. reflexivity.
  - unfold execute_move, execute_with. fold i. rewrite Hg, Hmt.
    unfold sim_apply_destination_effects. rewrite Hd, Hj. fold i. rewrite Hup.
    unfold sim_apply_source_effects. rewrite Hsrc. reflexivity.
  - exact Hr.
  - reflexivity.
Qed.

(** X15: a turn played while the game is not over increments the turn
    counter by one, whether it succeeds or raises. *)
Theorem play_turn_counts_turn foundation_distance e :
  is_game_over (game_state e) = false ->
  match play_turn foundation_distance e with
  | Done _ e' | Raised _ e' => turn_counter e' = S (turn_counter e)
  end.
Proof.
  intros H. unfold play_turn. rewrite H. cbn [game_state turn_counter].
  destruct (choose_moves foundation_distance (game_state e)) as [l|err]; [|reflexivity].
  unfold in_game; cbn [game_state turn_counter].
  destruct (execute_chosen l (game_state e)); reflexivity.
Qed.

Lemma make_move_player gs p src dst c d mt fid rs rd m :
  make_move gs p src dst c d mt fid rs rd = Ok m -> Move.player_index m = p.
Proof.
  unfold make_move. destruct (_ && _); [discriminate|]. destruct (_ && _); [discriminate|].
  destruct (_ && _); [discriminate|]. destruct (_ && _); [discriminate|].
  intros H; injection H as <-. reflexivity.
Qed.

Section Players.

Variable foundation_distance : nat -> string -> Q.

Lemma generate_river_move_player gs p c src m :
  generate_river_move gs p c src = Ok (Some m) -> Move.player_index m = p.
Proof.
  unfold generate_river_move. destruct (loc_eqb src RiverPile); [discriminate|].
  destruct (py_get _ _) as [pl|]; cbn [rbind]; [|discriminate].
  destruct (river_scan (cards_in_river (PlayerState.deck pl)) c river_range) as [[i|]|];
    cbn [rbind]; try discriminate.
  destruct (make_move _ _ _ _ _ _ _ _ _ _) as [m'|] eqn:E; cbn [rbind]; [|discriminate].
  intros H; injection H as <-. exact (make_move_player _ _ _ _ _ _ _ _ _ _ _ E).
Qed.

Lemma generate_foundation_move_player gs p c src rs m :
  generate_foundation_move foundation_distance gs p c src rs = Ok (Some m) ->
  Move.player_index m = p.
Proof.
  unfold generate_foundation_move.
  destruct src; cbn [rbind]; try discriminate;
  (destruct (rank_eqb _ _);
   [ destruct (make_move _ _ _ _ _ _ _ _ _ _) as [m'|] eqn:E; cbn [rbind]; [|discriminate];
     intros H; injection H as <-; exact (make_move_player _ _ _ _ _ _ _ _ _ _ _ E)
   | destruct (foundation_scan _ _) as [[f|]|]; cbn [rbind]; try discriminate;
     destruct (make_move _ _ _ _ _ _ _ _ _ _) as [m'|] eqn:E; cbn [rbind]; [|discriminate];
     intros H; injection H as <-; exact (make_move_player _ _ _ _ _ _ _ _ _ _ _ E) ]).
Qed.

Lemma owned_snoc p l m :
  Forall (fun x => Move.player_index x = p) l -> Move.player_index m = p ->
  Forall (fun x => Move.player_index x = p) (l ++ [m]).
Proof. intros H1 H2. apply Forall_app; split; [exact H1|constructor; [exact H2|constructor]]. Qed.

Lemma owned_append_opt p l o :
  Forall (fun x => Move.player_index x = p) l ->
  (forall m, o = Some m -> Move.player_index m = p) ->
  Forall (fun x => Move.player_index x = p) (append_opt l o).
Proof.
  intros H1 H2. destruct o as [m|]; simpl; [|exact H1].
  apply owned_snoc; [exact H1|apply H2; reflexivity].
Qed.

Lemma calculate_legal_moves_player gs p ms :
  calculate_legal_moves foundation_distance gs p = Ok ms ->
  Forall (fun m => Move.player_index m = p) ms.
Proof.
  set (P := fun l => Forall (fun m : Move.t => Move.player_index m = p) l).
  unfold calculate_legal_moves.
  destruct (_add_nertz_moves _ gs p []) as [l1|] eqn:E1; cbn [rbind]; [|discriminate].
  assert (H1 : P l1).
  { unfold _add_nertz_moves in E1.
    destruct (py_get _ _) as [pl|]; cbn [rbind] in E1; [|discriminate].
    destruct (cards_in_nertz _); [injection E1 as <-; constructor|].
    destruct (top_nertz_card _) as [c|]; [|injection E1 as <-; constructor].
    destruct (generate_foundation_move _ _ _ _ _ _) as [[m|]|] eqn:Eg; cbn [rbind] in E1; try discriminate.
    - injection E1 as <-. apply (owned_snoc p []); [constructor|].
      exact (generate_foundation_move_player _ _ _ _ _ _ Eg).
    - destruct (generate_river_move _ _ _ _) as [o|] eqn:Er; cbn [rbind] in E1; [|discriminate].
      injection E1 as <-. apply owned_append_opt; [constructor|].
      intros m ->. exact (generate_river_move_player _ _ _ _ _ Er). }
  destruct (_add_river_to_foundation_moves _ gs p l1) as [l2|] eqn:E2; cbn [rbind]; [|discriminate].
  assert (H2 : P l2).
  { unfold _add_river_to_foundation_moves in E2.
    destruct (py_get _ _) as [pl|]; cbn [rbind] in E2; [|discriminate].
    refine (py_for_inv P _ _ _ _ _ H1 E2).
    intros acc i acc' Ha Hb.
    destruct (py_get _ _); cbn [rbind] in Hb; [|discriminate].
    destruct (py_last _) as [c|]; [|injection Hb as <-; exact Ha].
    destruct (generate_foundation_move _ _ _ _ _ _) as [o|] eqn:Eg; cbn [rbind] in Hb; [|discriminate].
    injection Hb as <-. apply owned_append_opt; [exact Ha|].
    intros m ->. exact (generate_foundation_move_player _ _ _ _ _ _ Eg). }
  destruct (_add_river_to_river_moves gs p l2) as [l3|] eqn:E3; cbn [rbind]; [|discriminate].
  assert (H3 : P l3).
  { unfold _add_river_to_river_moves in E3.
    destruct (py_get _ _) as [pl|]; cbn [rbind] in E3; [|discriminate].
    refine (py_for_inv P _ _ _ _ _ H2 E3).
    intros acc i acc' Ha Hb.
    destruct (py_get _ _) as [[|sc r]|]; cbn [rbind] in Hb; try discriminate;
      [injection Hb as <-; exact Ha|].
    refine (py_for_inv P _ _ _ _ _ Ha Hb).
    intros acc2 j acc2' Ha2 Hb2.
    destruct (Nat.eqb i j); [injection Hb2 as <-; exact Ha2|].
    destruct (py_get _ _); cbn [rbind] in Hb2; [|discriminate].
    destruct (py_last _); [|injection Hb2 as <-; exact Ha2].
    destruct (_is_valid_solitaire_move _ _); [|injection Hb2 as <-; exact Ha2].
    destruct (make_move _ _ _ _ _ _ _ _ _ _) as [m|] eqn:Em; cbn [rbind] in Hb2; [|discriminate].
    injection Hb2 as <-. apply owned_snoc; [exact Ha2|].
    exact (make_move_player _ _ _ _ _ _ _ _ _ _ _ Em). }
  unfold _add_deck_moves.
  destruct (py_get _ _) as [pl|]; cbn [rbind]; [|discriminate].
  destruct (generate_stream_flip_move gs p) as [fm|] eqn:Ef; cbn [rbind]; [|discriminate].
  assert (Hf : P (l3 ++ [fm])).
  { apply owned_snoc; [exact H3|]. exact (make_move_player _ _ _ _ _ _ _ _ _ _ _ Ef). }
  destruct (top_stream_cards _ _); cbn [rbind]; [|discriminate].
  destruct (py_get _ _) as [c|]; cbn [rbind]; [|discriminate].
  destruct (generate_river_move _ _ _ _) as [[m|]|] eqn:Er; cbn [rbind]; try discriminate.
  - intros H; injection H as <-. apply owned_snoc; [exact Hf|].
    exact (generate_river_move_player _ _ _ _ _ Er).
  - destruct (generate_foundation_move _ _ _ _ _ _) as [o|] eqn:Eg; cbn [rbind]; [|discriminate].
    intros H; injection H as <-. apply owned_append_opt; [exact Hf|].
    intros m ->. exact (generate_foundation_move_player _ _ _ _ _ _ Eg).
Qed.

End Players.

Lemma select_fold_in ms h o m :
  snd (fold_left select_step ms (h, o)) = Some m -> o = Some m \/ In m ms.
Proof.
  revert h o. induction ms as [|x t IH]; intros h o H; [left; exact H|].
  cbn [fold_left] in H. unfold select_step at 2 in H.
  destruct (Qlt_bool h _); apply IH in H as [H|H].
  - injection H as ->. right; left; reflexivity.
  - right; right; exact H.
  - left; exact H.
  - right; right; exact H.
Qed.

Lemma select_move_in ms m : select_move ms = Some m -> In m ms.
Proof. unfold select_move. intros H. apply select_fold_in in H as [H|H]; [discriminate|exact H]. Qed.

Lemma calculate_legal_moves_flip foundation_distance gs p ms :
  calculate_legal_moves foundation_distance gs p = Ok ms ->
  exists fm, In fm ms /\ (-1 < combined_score fm)%Q.
Proof.
  unfold calculate_legal_moves.
  destruct (_add_nertz_moves _ gs p []) as [l1|]; cbn [rbind]; [|discriminate].
  destruct (_add_river_to_foundation_moves _ gs p l1) as [l2|]; cbn [rbind]; [|discriminate].
  destruct (_add_river_to_river_moves gs p l2) as [l3|]; cbn [rbind]; [|discriminate].
  unfold _add_deck_moves.
  destruct (py_get _ _) as [pl|]; cbn [rbind]; [|discriminate].
  destruct (generate_stream_flip_move gs p) as [fm|] eqn:Ef; cbn [rbind]; [|discriminate].
  assert (Hs : (-1 < combined_score fm)%Q).
  { assert (H0 : (0 <= 0)%Q) by apply Qle_refl.
    pose proof (make_move_score _ _ _ _ _ _ _ _ _ _ _ H0 Ef). lra. }
  assert (Hin : In fm (l3 ++ [fm])) by (apply in_or_app; right; left; reflexivity).
  destruct (top_stream_cards _ _); cbn [rbind]; [|discriminate].
  destruct (py_get _ _) as [c|]; cbn [rbind]; [|discriminate].
  destruct (generate_river_move _ _ _ _) as [[m|]|]; cbn [rbind]; try discriminate.
  - intros H; injection H as <-. exists fm. split; [apply in_or_app; left; exact Hin|exact Hs].
  - destruct (generate_foundation_move _ _ _ _ _ _) as [[m|]|]; cbn [rbind]; try discriminate;
      intros H; injection H as <-; exists fm; (split; [|exact Hs]); cbn [append_opt];
      [apply in_or_app; left|]; exact Hin.
Qed.

Lemma select_fold_keeps ms h m : snd (fold_left select_step ms (h, Some m)) <> None.
Proof.
  revert h m. induction ms as [|x t IH]; intros h m; [discriminate|].
  cbn [fold_left]. unfold select_step at 2. destruct (Qlt_bool h _); apply IH.
Qed.

Lemma select_fold_some ms h o :
  snd (fold_left select_step ms (h, o)) = None -> Forall (fun x => combined_score x <= h)%Q ms.
Proof.
  revert h o. induction ms as [|x t IH]; intros h o H; [constructor|].
  cbn [fold_left] in H. unfold select_step at 2 in H. fold (combined_score x) in H.
  destruct (Qlt_bool h (combined_score x)) eqn:E.
  - exfalso. exact (select_fold_keeps _ _ _ H).
  - assert (Hx : (combined_score x <= h)%Q).
    { destruct (Qlt_le_dec h (combined_score x)) as [Hl|Hl]; [|exact Hl].
      apply Qlt_bool_iff in Hl; congruence. }
    constructor; [exact Hx|exact (IH _ _ H)].
Qed.

(** X16: [choose_moves] succeeds only with exactly one move per player, in
    the order of the players, each move belonging to its player. *)
Theorem choose_moves_one_per_player foundation_distance gs chosen :
  choose_moves foundation_distance gs = Ok chosen ->
  Forall2 (fun pl m => Move.player_index m = PlayerState.player_index pl) (players gs) chosen.
Proof.
  intros H. unfold choose_moves in H. apply choose_loop in H as [mss [Hf ->]].
  cbn [app]. induction Hf as [|pl ms ps mss Hp Hf IH]; cbn [flat_map]; [constructor|].
  destruct (select_move ms) as [m|] eqn:Es; cbn [option_list app].
  - constructor; [|exact IH].
    apply calculate_legal_moves_player in Hp as Hpl. rewrite Forall_forall in Hpl.
    apply Hpl, select_move_in, Es.
  - exfalso. destruct (calculate_legal_moves_flip _ _ _ _ Hp) as [fm [Hin Hs]].
    unfold select_move in Es. apply select_fold_some in Es. rewrite Forall_forall in Es.
    specialize (Es fm Hin). cbv beta in Es. lra.
Qed.

(** X17: a non-Ace move onto a foundation identifier missing from the game
    raises in both executors ([InvalidPileError] and [ValueError]) and
    leaves the game state unchanged. *)
Theorem execute_missing_foundation_unchanged gs m pl c fid :
  Move.move_type m <> DECK_TO_DECK -> Move.destination_pile m = FoundationPile ->
  Move.card m = Some c -> PlayingCard.rank c <> rank_A ->
  Move.foundation_identifier m = Some fid -> dict_get (foundations gs) fid = None ->
  nth_error (players gs) (Move.player_index m) = Some pl ->
  execute m gs = Raised (InvalidPileError fid) gs /\
  execute_move m gs = Raised (ValueError ("Foundation " ++ fid ++ " does not exist.")) gs.
Proof.
  intros Ht Hd Hc Hr Hf Hg Hpl.
  assert (Hmt : move_type_eqb (Move.move_type m) DECK_TO_DECK = false)
    by (destruct (Move.move_type m); try reflexivity; contradiction).
  assert (Hpg : py_get (players gs) (Move.player_index m) = Ok pl)
    by (unfold py_get; rewrite Hpl; reflexivity).
  assert (Hra : rank_eqb (PlayingCard.rank c) rank_A = false)
    by (destruct (rank_eqb _ _) eqn:E; [apply rank_eqb_eq in E; contradiction|reflexivity]).
  assert (Hpf : forall lake mis, place_on_foundation lake mis gs m = Err (mis fid)).
  { intros lake mis. unfold place_on_foundation, move_card. rewrite Hc. cbn [rbind].
    rewrite Hra, Hf, Hg. reflexivity. }
  split.
  - unfold execute, execute_with. rewrite Hpg, Hmt.
    unfold exe_apply_destination_effects. rewrite Hd, Hpf. reflexivity.
  - unfold execute_move, execute_with. rewrite Hpg, Hmt.
    unfold sim_apply_destination_effects. rewrite Hd, Hpf. reflexivity.
Qed.

Lemma deal_starting_hand_order_witness :
  List.length (rev (full_deck 0)) = 52 /\
  deal_starting_hand 0 (@rev Card) = Ok (dealt_deck (rev (full_deck 0))).
Proof.
  assert (H : List.length (rev (full_deck 0)) = 52) by reflexivity.
  split; [exact H|exact (deal_starting_hand_order 0 (@rev Card) H)].
Defined.

Lemma deal_starting_hand_piles_witness :
  Permutation (rev (full_deck 1)) (full_deck 1) /\
  exists d, deal_starting_hand 1 (@rev Card) = Ok d /\
    List.length (cards_in_deck d) = 32 /\ List.length (cards_in_stream d) = 3 /\
    map (@List.length Card) (cards_in_river d) = [1; 1; 1; 1] /\
    List.length (cards_in_nertz d) = 13 /\ cards_in_lake d = [] /\
    Permutation (pile_cards d) (full_deck 1).
Proof.
  assert (H : Permutation (rev (full_deck 1)) (full_deck 1))
    by (apply Permutation_sym, Permutation_rev).
  split; [exact H|exact (deal_starting_hand_piles 1 (@rev Card) H)].
Defined.

Lemma new_game_state_owned_cards_witness :
  0 < 2 /\ (forall i, i < 2 -> Permutation (rev (full_deck i)) (full_deck i)) /\
  exists gs, new_game_state 2 (fun _ l => rev l) = Ok gs /\
    player_count gs = 2 /\ foundations gs = [] /\
    map PlayerState.player_index (players gs) = seq 0 2 /\
    Forall (fun pl => PlayerState.score pl = 0%Z) (players gs) /\
    forall q, Permutation (owned_cards gs q) (if q <? 2 then full_deck q else []).
Proof.
  assert (H : forall i, i < 2 -> Permutation (rev (full_deck i)) (full_deck i))
    by (intros i _; apply Permutation_sym, Permutation_rev).
  assert (H0 : 0 < 2) by lia.
  split; [exact H0|split; [exact H|exact (new_game_state_owned_cards 2 (fun _ l => rev l) H0 H)]].
Defined.

Lemma new_game_state_not_over_witness :
  0 < 3 /\ (forall i, i < 3 -> List.length (rev (full_deck i)) = 52) /\
  exists gs, new_game_state 3 (fun _ l => rev l) = Ok gs /\ is_game_over gs = false.
Proof.
  assert (H : forall i, i < 3 -> List.length (rev (full_deck i)) = 52)
    by (intros i _; reflexivity).
  assert (H0 : 0 < 3) by lia.
  split; [exact H0|split; [exact H|exact (new_game_state_not_over 3 (fun _ l => rev l) H0 H)]].
Defined.

Lemma new_game_state_scores_witness :
  0 < 2 /\ (forall i, i < 2 -> List.length (full_deck i) = 52) /\
  exists gs, new_game_state 2 (fun _ l => l) = Ok gs /\
    map PlayerState.score (players (process_game_scores gs)) = repeat (-26)%Z 2.
Proof.
  assert (H : forall i, i < 2 -> List.length (full_deck i) = 52)
    by (intros i _; reflexivity).
  assert (H0 : 0 < 2) by lia.
  split; [exact H0|split; [exact H|exact (new_game_state_scores 2 (fun _ l => l) H0 H)]].
Defined.

Lemma execute_nertz_mismatch_no_rollback_witness :
  let m := Move.mk 0 NertzPile RiverPile (Some card_d9) 0 NERTZ_TO_RIVER 0 None None (Some 2) in
  top_nertz_card deck_ex <> Some card_d9 /\
  exists gs1 pl1,
    execute m gs_ex = Raised (CardMismatchError "NertzPile") gs1 /\
    execute_move m gs_ex = Raised (ValueError "Top Nertz card does not match the move card.") gs1 /\
    nth_error (players gs1) 0 = Some pl1 /\
    nth_error (cards_in_river (PlayerState.deck pl1)) 2 = Some ([] ++ [card_d9]) /\
    cards_in_nertz (PlayerState.deck pl1) = cards_in_nertz deck_ex.
Proof.
  intros m.
  assert (Htop : top_nertz_card deck_ex <> Some card_d9) by (vm_compute; discriminate).
  split; [exact Htop|].
  exact (execute_nertz_mismatch_no_rollback gs_ex m (PlayerState.mk 0 0 deck_ex) [] card_d9 2
           ltac:(discriminate) eq_refl eq_refl eq_refl eq_refl eq_refl eq_refl Htop).
Defined.

Lemma play_turn_counts_turn_witness :
  is_game_over (game_state (mkEngine gs_ex 4)) = false /\
  match play_turn dist_ex (mkEngine gs_ex 4) with
  | Done _ e' | Raised _ e' => turn_counter e' = 5
  end.
Proof.
  assert (H : is_game_over (game_state (mkEngine gs_ex 4)) = false) by reflexivity.
  split; [exact H|exact (play_turn_counts_turn dist_ex (mkEngine gs_ex 4) H)].
Defined.

Lemma choose_moves_one_per_player_witness :
  choose_moves dist_ex gs_flipped = Ok [move_ace] /\
  Forall2 (fun pl m => Move.player_index m = PlayerState.player_index pl)
          (players gs_flipped) [move_ace].
Proof.
  assert (H : choose_moves dist_ex gs_flipped = Ok [move_ace]) by (vm_compute; reflexivity).
  split; [exact H|exact (choose_moves_one_per_player dist_ex gs_flipped [move_ace] H)].
Defined.

Lemma execute_missing_foundation_unchanged_witness :
  dict_get (foundations gs_ex) (foundation_key 1 spades) = None /\
  execute move_far gs_ex = Raised (InvalidPileError (foundation_key 1 spades)) gs_ex /\
  execute_move move_far gs_ex =
    Raised (ValueError ("Foundation " ++ foundation_key 1 spades ++ " does not exist.")) gs_ex.
Proof.
  assert (Hg : dict_get (foundations gs_ex) (foundation_key 1 spades) = None) by reflexivity.
  split; [exact Hg|].
  exact (execute_missing_foundation_unchanged gs_ex move_far (PlayerState.mk 0 0 deck_ex)
           card_s2_p0 (foundation_key 1 spades) ltac:(discriminate) eq_refl eq_refl
           ltac:(discriminate) eq_refl Hg eq_refl).
Defined.

Lemma dict_set_fresh {V} (d : dict V) k v :
  ~ In k (map fst d) -> dict_set d k v = d ++ [(k, v)].
Proof.
  induction d as [|[k' v'] t IH]; intros H; [reflexivity|].
  cbn. destruct (String.eqb k k') eqn:E.
  - apply String.eqb_eq in E. subst. exfalso. apply H. left. reflexivity.
  - rewrite IH; [reflexivity|]. intros Hk. apply H. right. exact Hk.
Qed.

Lemma from_game_state_loop l acc ctx :
  NoDup (map fst acc ++ map fst l) ->
  py_for l acc (fun fs kv =>
    top <- Foundation.top (snd kv) ;;
    Ok (dict_set fs (fst kv)
          (FoundationSummary.mk (Foundation.identifier (snd kv)) (Foundation.suit (snd kv))
                                (PlayingCard.rank top)))) = Ok ctx ->
  map fs_key (dict_values ctx) = map fs_key (dict_values acc) ++ map f_key (dict_values l).
Proof.
  revert acc. induction l as [|[k f] t IH]; intros acc Hnd H.
  - cbn in H. injection H as <-. cbn. rewrite app_nil_r. reflexivity.
  - cbn [py_for snd fst] in H. unfold Foundation.top in H.
    destruct (py_last (Foundation.cards f)) as [c|]; cbn [rbind] in H; [|discriminate H].
    rewrite dict_set_fresh in H.
    + apply IH in H.
      * rewrite H. unfold dict_values. rewrite map_app, map_app, <- app_assoc. reflexivity.
      * rewrite map_app, <- app_assoc. exact Hnd.
    + intros Hk. cbn [map fst] in Hnd. apply NoDup_remove_2 in Hnd. apply Hnd.
      apply in_or_app. left. exact Hk.
Qed.

Lemma from_game_state_loop_err l acc e :
  py_for l acc (fun fs kv =>
    top <- Foundation.top (snd kv) ;;
    Ok (dict_set fs (fst kv)
          (FoundationSummary.mk (Foundation.identifier (snd kv)) (Foundation.suit (snd kv))
                                (PlayingCard.rank top)))) = Err e <->
  e = IndexError /\ Exists (fun f => Foundation.cards f = []) (dict_values l).
Proof.
  revert acc. induction l as [|[k f] t IH]; intros acc.
  - cbn. split; [discriminate|]. intros [_ H]. inversion H.
  - cbn [py_for snd fst]. unfold Foundation.top.
    destruct (py_last (Foundation.cards f)) as [c|] eqn:E; cbn [rbind snd fst dict_values map].
    + rewrite IH. split.
      * intros [He Hx]. split; [exact He|]. right. exact Hx.
      * intros [He Hx]. split; [exact He|]. inversion Hx as [? ? Hc|? ? Hx']; subst.
        -- cbn in Hc. rewrite Hc in E. discriminate.
        -- exact Hx'.
    + split.
      * intros Hr. injection Hr as <-. split; [reflexivity|]. left. cbn.
        apply py_last_none in E. exact E.
      * intros [-> _]. reflexivity.
Qed.

Lemma existsb_map' {A B} (f : B -> bool) (g : A -> B) l :
  existsb f (map g l) = existsb (fun x => f (g x)) l.
Proof. induction l as [|x t IH]; cbn; [reflexivity|now rewrite IH]. Qed.

Lemma from_game_state_keys gs ctx :
  NoDup (map fst (foundations gs)) -> from_game_state gs = Ok ctx ->
  map fs_key (dict_values ctx) = map f_key (dict_values (foundations gs)).
Proof. intros Hnd H. exact (from_game_state_loop _ [] ctx Hnd H). Qed.

(** X18: [MoveContext.from_game_state] raises exactly when some foundation
    of the game has no cards, and then raises [IndexError] (from
    [Foundation.top]). *)
Theorem from_game_state_index_error gs e :
  from_game_state gs = Err e <->
  e = IndexError /\ Exists (fun f => Foundation.cards f = []) (dict_values (foundations gs)).
Proof. apply from_game_state_loop_err. Qed.

Lemma ctx_strategic_bonus_agrees gs ctx src dst card fid :
  NoDup (map fst (foundations gs)) -> from_game_state gs = Ok ctx ->
  ctx_calculate_strategic_bonus ctx src dst card fid =
  _calculate_strategic_bonus (foundations gs) src dst card fid.
Proof.
  intros Hnd H. apply from_game_state_keys in H; [|exact Hnd].
  unfold ctx_calculate_strategic_bonus, _calculate_strategic_bonus.
  destruct card as [c|]; [|reflexivity].
  set (P := fun k : string * Suit => suit_eqb (snd k) (PlayingCard.suit c) && str_opt_neqb (fst k) fid).
  replace (existsb _ (dict_values ctx)) with (existsb P (map fs_key (dict_values ctx)))
    by (rewrite existsb_map'; reflexivity).
  replace (existsb _ (dict_values (foundations gs))) with (existsb P (map f_key (dict_values (foundations gs))))
    by (rewrite existsb_map'; reflexivity).
  rewrite H. reflexivity.
Qed.

(** X19: once [MoveContext.from_game_state] has succeeded on a game state
    (whose foundation keys are distinct, as in a Python dict), building a
    move.py [Move] from the context gives the same move and priority as the
    simulator's [Move] built from the game state, and the validation
    failures carry the same messages, raised as [MoveValidationError]
    instead of [ValueError]; the one exception is a valid nertz-to-foundation
    move without a card, which the simulator's [Move] rejects with
    [AttributeError] while move.py builds it. *)
Theorem ctx_make_move_agrees gs ctx p src dst card d mt fid rs rd :
  NoDup (map fst (foundations gs)) -> from_game_state gs = Ok ctx ->
  if loc_eqb src NertzPile && loc_eqb dst FoundationPile && negb (is_some card)
     && negb (id_missing fid)
  then make_move gs p src dst card d mt fid rs rd = Err AttributeError /\
       exists m, ctx_make_move ctx p src dst card d mt fid rs rd = Ok m
  else ctx_make_move ctx p src dst card d mt fid rs rd =
       as_move_validation_error (make_move gs p src dst card d mt fid rs rd).
Proof.
  intros Hnd H. unfold ctx_make_move, ctx_calculate_priority, make_move, move_priority.
  rewrite (ctx_strategic_bonus_agrees gs ctx src dst card fid Hnd H).
  destruct src, dst, (is_some card), (id_missing fid), (is_some rs), (is_some rd); cbn;
    first [reflexivity | split; [reflexivity | eexists; reflexivity]].
Qed.

Lemma ctx_make_move_agrees_witness :
  NoDup (map fst (foundations gs_found)) /\
  exists ctx, from_game_state gs_found = Ok ctx /\
    ctx_make_move ctx 0 NertzPile FoundationPile (Some card_s2_p0) (1#2) NERTZ_TO_FOUNDATION
                  (Some (foundation_key 0 spades)) None None =
    as_move_validation_error
      (make_move gs_found 0 NertzPile FoundationPile (Some card_s2_p0) (1#2) NERTZ_TO_FOUNDATION
                 (Some (foundation_key 0 spades)) None None).
Proof.
  assert (Hnd : NoDup (map fst (foundations gs_found))) by (repeat constructor; cbn; tauto).
  split; [exact Hnd|].
  destruct (from_game_state gs_found) as [ctx|e] eqn:E.
  - exists ctx. split; [reflexivity|].
    exact (ctx_make_move_agrees gs_found ctx 0 NertzPile FoundationPile (Some card_s2_p0) (1#2)
             NERTZ_TO_FOUNDATION (Some (foundation_key 0 spades)) None None Hnd E).
  - exfalso. vm_compute in E. discriminate.
Defined.
